(** * Runtime-fleet proxy: registry, balancer, heartbeat sweep and router

    A shallow embedding of [openhands/runtime/proxy] (models.py, registry.py,
    balancer.py and the routing and heartbeat handlers of server.py), with the
    properties of the specification stated and settled against it.

    Modelling conventions.
    - Python exceptions are values of [exn]; a call that may raise returns a
      [result].
    - [ServerRegistry._servers] is an insertion-ordered dictionary (the order
      decides which of two equally loaded servers the balancer returns), so it
      is an association list; [_sessions] and [_server_sessions] are only
      looked up by key and are finite maps.
    - A [datetime] is naive or aware of a UTC offset, and is counted in
      microseconds, the resolution of Python's [datetime]. [datetime.now()]
      returns a naive one; a timestamp parsed from a request body is aware
      when the text carries an offset. Every call of [datetime.now()] is a
      reading of its own.
    - A Python [float] is represented by the rational number it denotes;
      [truediv] is the correctly rounded quotient that [int / int] returns. *)

From Stdlib Require Import ZArith QArith Lia.
From stdpp Require Import gmap strings list fin_maps.

Local Open Scope Z_scope.

(** ** Exceptions *)

Inductive exn : Type :=
| KeyError
| ValueError
| ZeroDivisionError
| OverflowError
| TypeError
| ValidationError
| HTTPException (status_code : Z).

Inductive result (A : Type) : Type :=
| Return (a : A)
| Raise (e : exn).
Arguments Return {A} a.
Arguments Raise {A} e.

(** Sequencing: the first exception raised propagates. *)
#[global] Instance result_bind : MBind result := λ A B k r,
  match r with
  | Return a => k a
  | Raise e => Raise e
  end.

(** ** models.py *)

(** A [datetime]. [Naive t] is the naive datetime [t] microseconds after
    [datetime.min]; [Aware t utcoffset] is the instant [t] microseconds after
    [datetime.min] in UTC, carried by a datetime whose [tzinfo] has the offset
    [utcoffset]. pydantic parses a timestamp without an offset into the
    first and one with an offset into the second. *)
Inductive datetime : Type :=
| Naive (t : Z)
| Aware (t : Z) (utcoffset : Z).

(** [a - b], in microseconds: two naive datetimes are subtracted as they
    are, two aware ones as instants, and Python refuses to subtract a naive
    and an aware one. *)
Definition datetime_sub (a b : datetime) : result Z :=
  match a, b with
  | Naive x, Naive y => Return (x - y)
  | Aware x _, Aware y _ => Return (x - y)
  | _, _ => Raise TypeError
  end.

Inductive ServerStatus : Type := ONLINE | OFFLINE | BUSY | MAINTENANCE.

#[global] Instance ServerStatus_eq_dec : EqDecision ServerStatus.
Proof. solve_decision. Defined.

Module ServerCapacity.

Record t : Type := mk {
  max_sessions : Z;
  current_sessions : Z;
  cpu_usage : Q;
  memory_usage : Q;
  last_updated : datetime
}.

End ServerCapacity.
Abbreviation ServerCapacity := ServerCapacity.t.

Module RuntimeServer.

Record t : Type := mk {
  server_id : string;
  host : string;
  port : Z;
  status : ServerStatus;
  capacity : ServerCapacity;
  metadata : list (string * string)
}.

(** [server.status = v] *)
Definition set_status (v : ServerStatus) (s : t) : t :=
  mk (server_id s) (host s) (port s) v (capacity s) (metadata s).

(** [server.capacity = v] *)
Definition set_capacity (v : ServerCapacity) (s : t) : t :=
  mk (server_id s) (host s) (port s) (status s) v (metadata s).

End RuntimeServer.
Abbreviation RuntimeServer := RuntimeServer.t.

Module SessionInfo.

Record t : Type := mk {
  session_id : string;
  server_id : string;
  created_at : datetime;
  last_active : datetime;
  metadata : list (string * string)
}.

(** The call [SessionInfo(session_id=..., server_id=...)]: each of the two
    timestamps defaults to a call of [datetime.now()] of its own, [now1] for
    [created_at] and [now2] for [last_active], and the metadata to an empty
    dictionary. [session_id] is a required [str] field, so pydantic rejects
    [None] with a validation error. *)
Definition init (now1 now2 : Z) (session_id : option string)
    (server_id : string) : result t :=
  match session_id with
  | Some sid => Return (mk sid server_id (Naive now1) (Naive now2) [])
  | None => Raise ValidationError
  end.

End SessionInfo.
Abbreviation SessionInfo := SessionInfo.t.

(** ** Insertion-ordered dictionaries with string keys *)

Module PyDict.
Section ops.
Context {V : Type}.
Implicit Types (d : list (string * V)) (k : string) (v : V).

(** [d.get(k)] *)
Fixpoint get k d : option V :=
  match d with
  | [] => None
  | (k', v') :: d' => if decide (k' = k) then Some v' else get k d'
  end.

(** [d[k] = v]: an existing key keeps its position, a new key goes last. *)
Fixpoint set k v d : list (string * V) :=
  match d with
  | [] => [(k, v)]
  | (k', v') :: d' =>
      if decide (k' = k) then (k, v) :: d' else (k', v') :: set k v d'
  end.

(** [del d[k]] *)
Definition del k d : list (string * V) :=
  filter (λ kv, kv.1 ≠ k) d.

(** In-place mutation of the object stored under [k]. *)
Definition alter (f : V → V) k d : list (string * V) :=
  (λ kv, if decide (kv.1 = k) then (kv.1, f kv.2) else kv) <$> d.

(** [list(d.values())] *)
Definition values d : list V := d.*2.

Definition keys d : list string := d.*1.

End ops.
End PyDict.

(** ** registry.py *)

Record ServerRegistry : Type := mkRegistry {
  _servers : list (string * RuntimeServer);
  _sessions : gmap string SessionInfo;
  _server_sessions : gmap string (list string)
}.

(** [ServerRegistry.__init__] *)
Definition empty_registry : ServerRegistry := mkRegistry [] ∅ ∅.

(** [list.remove(x)]: drops the first occurrence, [ValueError] if there is
    none. *)
Fixpoint list_remove (x : string) (l : list string) : result (list string) :=
  match l with
  | [] => Raise ValueError
  | y :: l' =>
      if decide (y = x) then Return l'
      else l'' ← list_remove x l'; Return (y :: l'')
  end.

(** The assignments to [_servers] and [_server_sessions] cannot raise, so the
    [except] branch is dead and the call always returns [True]. *)
Definition register_server (reg : ServerRegistry) (server : RuntimeServer)
    : ServerRegistry * bool :=
  let sid := RuntimeServer.server_id server in
  (mkRegistry (PyDict.set sid server (_servers reg))
              (_sessions reg)
              (<[sid := []]> (_server_sessions reg)),
   true).

(** The loop [for session_id in sessions: if session_id in self._sessions:
    del self._sessions[session_id]]. *)
Definition drop_sessions (sessions : list string)
    (tbl : gmap string SessionInfo) : gmap string SessionInfo :=
  foldl (λ t session_id, delete session_id t) tbl sessions.

Definition unregister_server (reg : ServerRegistry) (server_id : string)
    : ServerRegistry * bool :=
  match PyDict.get server_id (_servers reg) with
  | Some _ =>
      let sessions := default [] (_server_sessions reg !! server_id) in
      (mkRegistry (PyDict.del server_id (_servers reg))
                  (drop_sessions sessions (_sessions reg))
                  (delete server_id (_server_sessions reg)),
       true)
  | None => (reg, false)
  end.

Definition get_server (reg : ServerRegistry) (server_id : string)
    : option RuntimeServer :=
  PyDict.get server_id (_servers reg).

Definition list_servers (reg : ServerRegistry) : list RuntimeServer :=
  PyDict.values (_servers reg).

Definition update_server_status (reg : ServerRegistry) (server_id : string)
    (status : ServerStatus) : ServerRegistry * bool :=
  match PyDict.get server_id (_servers reg) with
  | Some _ =>
      (mkRegistry
         (PyDict.alter (RuntimeServer.set_status status) server_id
            (_servers reg))
         (_sessions reg) (_server_sessions reg),
       true)
  | None => (reg, false)
  end.

(** The session is stored first; the index lookup
    [self._server_sessions[session.server_id]] then raises [KeyError] when the
    server has no index, which the [except] branch turns into [False] without
    undoing the store. *)
Definition register_session (reg : ServerRegistry) (session : SessionInfo)
    : ServerRegistry * bool :=
  let sessions' :=
    <[SessionInfo.session_id session := session]> (_sessions reg) in
  match _server_sessions reg !! SessionInfo.server_id session with
  | Some ids =>
      (mkRegistry (_servers reg) sessions'
         (<[SessionInfo.server_id session :=
              ids ++ [SessionInfo.session_id session]]>
            (_server_sessions reg)),
       true)
  | None => (mkRegistry (_servers reg) sessions' (_server_sessions reg), false)
  end.

(** [list.remove] runs before [del]; when it raises ([KeyError] for a missing
    index, [ValueError] for an id that is not listed) nothing has been
    changed yet. *)
Definition unregister_session (reg : ServerRegistry) (session_id : string)
    : ServerRegistry * bool :=
  match _sessions reg !! session_id with
  | Some session =>
      match _server_sessions reg !! SessionInfo.server_id session with
      | Some ids =>
          match list_remove session_id ids with
          | Return ids' =>
              (mkRegistry (_servers reg)
                 (delete session_id (_sessions reg))
                 (<[SessionInfo.server_id session := ids']>
                    (_server_sessions reg)),
               true)
          | Raise _ => (reg, false)
          end
      | None => (reg, false)
      end
  | None => (reg, false)
  end.

Definition get_session (reg : ServerRegistry) (session_id : string)
    : option SessionInfo :=
  _sessions reg !! session_id.

Definition get_sessions_by_server (reg : ServerRegistry) (server_id : string)
    : list SessionInfo :=
  let session_ids := default [] (_server_sessions reg !! server_id) in
  omap (λ sid, _sessions reg !! sid) session_ids.

(** ** Python arithmetic used by the balancer *)

(** Nearest integer to [n / d], ties to even ([0 ≤ n], [0 < d]). *)
Definition round_half_even (n d : Z) : Z :=
  let q := n / d in
  match 2 * (n mod d) ?= d with
  | Lt => q
  | Eq => if Z.even q then q else q + 1
  | Gt => q + 1
  end.

(** The value [m * 2 ^ e] as a rational. *)
Definition scale2 (m e : Z) : Q :=
  if 0 <=? e then inject_Z (m * 2 ^ e) else Qmake m (Z.to_pos (2 ^ (- e))).

(** [a / b] on Python integers: the quotient correctly rounded to binary64
    (53 significant bits, least exponent [-1074], round half to even);
    [ZeroDivisionError] when [b] is zero, [OverflowError] when the rounded
    quotient reaches [2 ^ 1024]. *)
Definition truediv (a b : Z) : result Q :=
  if b =? 0 then Raise ZeroDivisionError
  else if a =? 0 then Return (inject_Z 0)
  else
    let n := Z.abs a in
    let d := Z.abs b in
    let e0 := Z.log2 n - Z.log2 d in
    let below :=
      if 0 <=? e0 then n <? d * 2 ^ e0 else n * 2 ^ (- e0) <? d in
    let e := if below then e0 - 1 else e0 in
    let shift := Z.max (e - 52) (-1074) in
    let m :=
      if 0 <=? shift then round_half_even n (d * 2 ^ shift)
      else round_half_even (n * 2 ^ (- shift)) d in
    if (0 <=? shift) && (2 ^ 1024 <=? m * 2 ^ shift) then Raise OverflowError
    else Return (scale2 (Z.sgn a * Z.sgn b * m) shift).

(** [x < y] on floats. *)
Definition float_lt (x y : Q) : bool := negb (Qle_bool y x).

(** [sorted(l, key=key)]: every key is computed first, in list order, so the
    first key that raises aborts the call; the sort is stable and compares
    keys with [<] only. *)
Section sorted.
Context {A : Type}.

Fixpoint decorate (key : A → result Q) (l : list A) : result (list (Q * A)) :=
  match l with
  | [] => Return []
  | x :: l' => k ← key x; kl ← decorate key l'; Return ((k, x) :: kl)
  end.

Fixpoint insert_by_key (x : Q * A) (l : list (Q * A)) : list (Q * A) :=
  match l with
  | [] => [x]
  | y :: l' =>
      if float_lt y.1 x.1 then y :: insert_by_key x l' else x :: y :: l'
  end.

Definition sort_by_key (l : list (Q * A)) : list (Q * A) :=
  foldr insert_by_key [] l.

Definition sorted (key : A → result Q) (l : list A) : result (list A) :=
  kl ← decorate key l; Return (sort_by_key kl).*2.

End sorted.

(** ** balancer.py *)

(** The sort key [s.capacity.current_sessions / s.capacity.max_sessions]. *)
Definition load_ratio (s : RuntimeServer) : result Q :=
  truediv (ServerCapacity.current_sessions (RuntimeServer.capacity s))
          (ServerCapacity.max_sessions (RuntimeServer.capacity s)).

Definition select_server (reg : ServerRegistry)
    : result (option RuntimeServer) :=
  let servers := list_servers reg in
  let available_servers :=
    filter (λ s, RuntimeServer.status s = ONLINE) servers in
  match available_servers with
  | [] => Return None
  | _ =>
      sorted_servers ← sorted load_ratio available_servers;
      Return (head sorted_servers)
  end.

(** ** server.py: heartbeat sweep *)

(** [self.heartbeat_timeout], in seconds, as set by [ProxyServer.__init__]. *)
Definition default_heartbeat_timeout : Z := 60.

(** [timedelta.total_seconds()] of a duration of [delta] microseconds: the
    count divided by [10 ** 6], as a float. *)
Definition total_seconds (delta : Z) : result Q := truediv delta 1000000.

(** [(now - last_heartbeat).total_seconds()], where [now] is the reading
    of [datetime.now()] that opens the sweep, a naive datetime: the
    subtraction raises [TypeError] when [last_updated] is aware. *)
Definition time_since_last_heartbeat (now : Z) (server : RuntimeServer)
    : result Q :=
  let last_heartbeat :=
    ServerCapacity.last_updated (RuntimeServer.capacity server) in
  delta ← datetime_sub (Naive now) last_heartbeat;
  total_seconds delta.

(** The body of the loop of [_check_heartbeats], for the object [server].
    [time_since_last_heartbeat > self.heartbeat_timeout] compares a float
    with an integer. An exception leaves the registry as it is. *)
Definition check_heartbeat (heartbeat_timeout : Z) (now : Z)
    (reg : ServerRegistry) (server : RuntimeServer)
    : ServerRegistry * result unit :=
  if decide (RuntimeServer.status server = OFFLINE) then (reg, Return ())
  else
    match time_since_last_heartbeat now server with
    | Return time_since =>
        if float_lt (inject_Z heartbeat_timeout) time_since then
          ((update_server_status reg (RuntimeServer.server_id server)
              OFFLINE).1,
           Return ())
        else (reg, Return ())
    | Raise e => (reg, Raise e)
    end.

(** One iteration. The snapshot list holds the very objects the registry
    stores, which [update_server_status] mutates in place, so the iteration
    sees the object as the registry has it when the iteration runs; an
    object is named by the key it is stored under. *)
Definition visit_server (heartbeat_timeout : Z) (now : Z)
    (reg : ServerRegistry) (ref : string) : ServerRegistry * result unit :=
  match PyDict.get ref (_servers reg) with
  | Some server => check_heartbeat heartbeat_timeout now reg server
  | None => (reg, Return ())
  end.

(** The loop: the first iteration that raises ends it, and the servers
    after it are not visited. *)
Fixpoint for_servers (heartbeat_timeout : Z) (now : Z)
    (servers : list string) (reg : ServerRegistry)
    : ServerRegistry * result unit :=
  match servers with
  | [] => (reg, Return ())
  | ref :: servers' =>
      match visit_server heartbeat_timeout now reg ref with
      | (reg', Return _) => for_servers heartbeat_timeout now servers' reg'
      | (reg', Raise e) => (reg', Raise e)
      end
  end.

(** [_check_heartbeats]: the registry it leaves, and how it ends. An
    exception goes to [_heartbeat_check_loop], which logs it and sleeps
    until the next sweep. *)
Definition _check_heartbeats (heartbeat_timeout : Z) (now : Z)
    (reg : ServerRegistry) : ServerRegistry * result unit :=
  let servers := PyDict.keys (_servers reg) in
  for_servers heartbeat_timeout now servers reg.

(** ** server.py: routing *)

(** Calls that [proxy_request] makes to its collaborators, in order. *)
Inductive call : Type :=
| Call_select_server
| Call_SessionInfo (session_id : option string) (server_id : string)
| Call_register_session (session : SessionInfo)
| Call_upstream (host : string) (port : Z).

(** Step 1 of [proxy_request]: the server the session is bound to. An absent
    or empty header is falsy and skips the lookup. *)
Definition affinity_target (reg : ServerRegistry)
    (session_id : option string) : option RuntimeServer :=
  match session_id with
  | Some sid =>
      if decide (sid = EmptyString) then None
      else
        session ← get_session reg sid;
        get_server reg (SessionInfo.server_id session)
  | None => None
  end.

(** [proxy_request] up to the point where the upstream request is issued:
    [Return target] stands for the request being sent to
    [http://{target.host}:{target.port}/{path}]. [session_id] is
    [request.headers.get("session_id")], and [now1], [now2] are the two
    readings of [datetime.now()] that [SessionInfo] takes. An
    [HTTPException] is re-raised as it is; any other exception becomes
    [HTTPException 500]. *)
Definition proxy_request (reg : ServerRegistry) (now1 now2 : Z)
    (session_id : option string)
    : ServerRegistry * list call * result RuntimeServer :=
  let upstream target :=
    Call_upstream (RuntimeServer.host target) (RuntimeServer.port target) in
  match affinity_target reg session_id with
  | Some target_server => (reg, [upstream target_server], Return target_server)
  | None =>
      match select_server reg with
      | Raise _ => (reg, [Call_select_server], Raise (HTTPException 500))
      | Return None => (reg, [Call_select_server], Raise (HTTPException 503))
      | Return (Some target_server) =>
          let server_id := RuntimeServer.server_id target_server in
          match SessionInfo.init now1 now2 session_id server_id with
          | Raise _ =>
              (reg, [Call_select_server; Call_SessionInfo session_id server_id],
               Raise (HTTPException 500))
          | Return session =>
              ((register_session reg session).1,
               [Call_select_server; Call_SessionInfo session_id server_id;
                Call_register_session session; upstream target_server],
               Return target_server)
          end
      end
  end.

(** ** server.py: heartbeat endpoint *)

(** [handle_heartbeat(server_id, runtime_server)]: [server_id] is the path
    parameter and [runtime_server] the request body. The stored server is
    looked up under the id of the body; the status update goes to the id of
    the path. *)
Definition handle_heartbeat (reg : ServerRegistry) (server_id : string)
    (runtime_server : RuntimeServer) : ServerRegistry * result unit :=
  match get_server reg (RuntimeServer.server_id runtime_server) with
  | None =>
      let '(reg', success) := register_server reg runtime_server in
      if success then (reg', Return ()) else (reg', Raise (HTTPException 400))
  | Some server =>
      let reg1 :=
        mkRegistry
          (PyDict.alter
             (RuntimeServer.set_capacity (RuntimeServer.capacity runtime_server))
             (RuntimeServer.server_id runtime_server) (_servers reg))
          (_sessions reg) (_server_sessions reg) in
      if decide (RuntimeServer.status server = OFFLINE) then
        ((update_server_status reg1 server_id ONLINE).1, Return ())
      else (reg1, Return ())
  end.

(** ** server/registration.py: what the worker posts *)

Module RuntimeRegistrationClient.

(** The attributes of the client as [__init__] leaves them. *)
Record t : Type := mk {
  proxy_url : string;
  host : string;
  port : Z;
  server_id : string;
  heartbeat_interval : Z
}.



End RuntimeRegistrationClient.

(** * Vocabulary of the statements *)

(** [s] is a registered server with status online. *)
Definition online_in (reg : ServerRegistry) (s : RuntimeServer) : Prop :=
  s ∈ list_servers reg ∧ RuntimeServer.status s = ONLINE.

(** Every session bound to [K] is listed in the index of [K]. *)
Definition indexed_under (reg : ServerRegistry) (K : string) : Prop :=
  ∀ sid sess,
    get_session reg sid = Some sess → SessionInfo.server_id sess = K →
    sid ∈ default [] (_server_sessions reg !! K).

(** No session bound to [K] is listed in the index of another server. *)
Definition indexed_only_under (reg : ServerRegistry) (K : string) : Prop :=
  ∀ K' sid sess,
    K' ≠ K → get_session reg sid = Some sess →
    SessionInfo.server_id sess = K →
    sid ∉ default [] (_server_sessions reg !! K').

(** The server table is a dictionary keyed by the id of the server it
    stores: keys are unique and every entry sits under its own id. *)
Definition wf_servers (reg : ServerRegistry) : Prop :=
  NoDup (PyDict.keys (_servers reg))
  ∧ Forall (λ kv, RuntimeServer.server_id kv.2 = kv.1) (_servers reg).

(** Entries found by lookup sit under their own id. *)
Definition ids_agree (reg : ServerRegistry) : Prop :=
  ∀ k s, get_server reg k = Some s → RuntimeServer.server_id s = k.

(** What one visit of the loop of [_check_heartbeats] does to the server it
    visits, as the loop computes it. *)
Definition visited (heartbeat_timeout now : Z) (s : RuntimeServer)
    : RuntimeServer :=
  if decide (RuntimeServer.status s = OFFLINE) then s
  else
    match time_since_last_heartbeat now s with
    | Return time_since =>
        if float_lt (inject_Z heartbeat_timeout) time_since then
          RuntimeServer.set_status OFFLINE s
        else s
    | Raise _ => s
    end.

(** The naive datetimes of Python run from [datetime.min] to [datetime.max],
    which is this many microseconds. *)
Definition datetime_span : Z := 315537897600000000.

Definition representable (t : Z) : Prop := 0 ≤ t < datetime_span.

(** [s] was last heard from at a naive time. *)
Definition naive_heartbeat (s : RuntimeServer) : Prop :=
  ∃ t, ServerCapacity.last_updated (RuntimeServer.capacity s) = Naive t
       ∧ representable t.

(** Every server that a sweep would compare with its clock carries a naive
    [last_updated]. *)
Definition sweepable (reg : ServerRegistry) : Prop :=
  ∀ s, s ∈ list_servers reg → RuntimeServer.status s ≠ OFFLINE →
       naive_heartbeat s.

(** [s] was last heard from more than [heartbeat_timeout] seconds before
    [now], counted exactly. *)
Definition silent_beyond (heartbeat_timeout now : Z) (s : RuntimeServer)
    : bool :=
  match ServerCapacity.last_updated (RuntimeServer.capacity s) with
  | Naive t => heartbeat_timeout * 1000000 <? now - t
  | Aware _ _ => false
  end.

(** What a sweep is to do to a server: mark it offline when it is not
    offline and silent beyond the timeout. *)
Definition swept (heartbeat_timeout now : Z) (s : RuntimeServer)
    : RuntimeServer :=
  if decide (RuntimeServer.status s = OFFLINE) then s
  else if silent_beyond heartbeat_timeout now s then
    RuntimeServer.set_status OFFLINE s
  else s.

(** What every state built by the operations satisfies: the server table is
    keyed by server id without repetition, servers and session indexes have
    the same keys, and every session sits under its own id. The agreement
    of the session table with the indexes is not part of it: the operations
    do not maintain it. *)
Record wf_registry (reg : ServerRegistry) : Prop := {
  wf_table : wf_servers reg;
  wf_index_keys :
    ∀ k, is_Some (get_server reg k) ↔ is_Some (_server_sessions reg !! k);
  wf_session_keys :
    ∀ sid sess,
      get_session reg sid = Some sess → SessionInfo.session_id sess = sid
}.

(** The registry states the proxy can be in. *)
Inductive reachable : ServerRegistry → Prop :=
| reach_init : reachable empty_registry
| reach_register_server reg s :
    reachable reg → reachable (register_server reg s).1
| reach_unregister_server reg id :
    reachable reg → reachable (unregister_server reg id).1
| reach_update_server_status reg id status :
    reachable reg → reachable (update_server_status reg id status).1
| reach_register_session reg sess :
    reachable reg → reachable (register_session reg sess).1
| reach_unregister_session reg sid :
    reachable reg → reachable (unregister_session reg sid).1
| reach_check_heartbeats reg heartbeat_timeout now :
    reachable reg → reachable (_check_heartbeats heartbeat_timeout now reg).1
| reach_handle_heartbeat reg server_id b :
    reachable reg → reachable (handle_heartbeat reg server_id b).1
| reach_proxy_request reg now1 now2 session_id :
    reachable reg → reachable (proxy_request reg now1 now2 session_id).1.1.

(** The load ratio of [s] is defined: the divisor is not zero and the
    quotient stays below [2 ^ 53], far from the largest float. *)
Definition ratio_defined (s : RuntimeServer) : Prop :=
  ServerCapacity.max_sessions (RuntimeServer.capacity s) ≠ 0
  ∧ Z.abs (ServerCapacity.current_sessions (RuntimeServer.capacity s))
    < Z.abs (ServerCapacity.max_sessions (RuntimeServer.capacity s)) * 2 ^ 53.

(** The session counts of [s] are at least 0, its [max_sessions] is not 0,
    and both are below [2 ^ 26]: quotients of such counts are ordered as
    the exact fractions are. *)
Definition small_counts (s : RuntimeServer) : Prop :=
  0 ≤ ServerCapacity.current_sessions (RuntimeServer.capacity s) < 2 ^ 26
  ∧ 0 < ServerCapacity.max_sessions (RuntimeServer.capacity s) < 2 ^ 26.

(** The load ratio of [s] as the exact fraction [current_sessions /
    max_sessions], for a positive [max_sessions]. *)
Definition exact_ratio (s : RuntimeServer) : Q :=
  Qmake (ServerCapacity.current_sessions (RuntimeServer.capacity s))
        (Z.to_pos (ServerCapacity.max_sessions (RuntimeServer.capacity s))).


(** * Sample fleets used by the concrete statements *)

(** The samples carry naive timestamps, given in microseconds. *)
Definition sample_capacity (max_sessions current_sessions : Z)
    (last_updated : Z) : ServerCapacity :=
  ServerCapacity.mk max_sessions current_sessions (inject_Z 0) (inject_Z 0)
    (Naive last_updated).

Definition sample_server (server_id : string) (status : ServerStatus)
    (max_sessions current_sessions : Z) (last_updated : Z)
    : RuntimeServer :=
  RuntimeServer.mk server_id ("host-" +:+ server_id) 9001 status
    (sample_capacity max_sessions current_sessions last_updated) [].

Definition sample_session (session_id server_id : string)
    (created_at : Z) : SessionInfo :=
  SessionInfo.mk session_id server_id (Naive created_at) (Naive created_at) [].

(** Runs a sequence of registry calls, dropping the returned flags. *)
Definition run (ops : list (ServerRegistry → ServerRegistry * bool))
    : ServerRegistry :=
  foldl (λ reg op, (op reg).1) empty_registry ops.

(** One online server [A] hosting session [S1]. *)
Definition fleet_A : ServerRegistry :=
  run [λ reg, register_server reg (sample_server "A" ONLINE 10 1 0);
       λ reg, register_session reg (sample_session "S1" "A" 5)].

(** [A] registered, [S1] bound to it, [A] registered once more. *)
Definition fleet_A_twice : ServerRegistry :=
  run [λ reg, register_server reg (sample_server "A" ONLINE 10 1 0);
       λ reg, register_session reg (sample_session "S1" "A" 5);
       λ reg, register_server reg (sample_server "A" ONLINE 10 1 60)].

(** [S1] bound to [B], then bound again to [A]: the index of [B] keeps
    listing it. *)
Definition fleet_back : ServerRegistry :=
  run [λ reg, register_server reg (sample_server "A" ONLINE 10 1 0);
       λ reg, register_server reg (sample_server "B" ONLINE 10 0 0);
       λ reg, register_session reg (sample_session "S1" "B" 5);
       λ reg, register_session reg (sample_session "S1" "A" 6)].

(** [A] at load 5/10, [B] at load 2/10, [C] offline and idle. *)
Definition fleet_ABC : ServerRegistry :=
  run [λ reg, register_server reg (sample_server "A" ONLINE 10 5 0);
       λ reg, register_server reg (sample_server "B" ONLINE 10 2 0);
       λ reg, register_server reg (sample_server "C" OFFLINE 10 0 0)].

(** [Z] online with [max_sessions = 0], [B] online at load 2/10. *)
Definition fleet_ZB : ServerRegistry :=
  run [λ reg, register_server reg (sample_server "Z" ONLINE 0 0 0);
       λ reg, register_server reg (sample_server "B" ONLINE 10 2 0)].

(** [A] at load [(2 ^ 53 + 1) / 1], then [B] at load [2 ^ 53 / 1]: the two
    quotients are the same double. *)
Definition fleet_round : ServerRegistry :=
  run [λ reg, register_server reg
                (sample_server "A" ONLINE 1 9007199254740993 0);
       λ reg, register_server reg
                (sample_server "B" ONLINE 1 9007199254740992 0)].

(** [A] and [B] online, [S1] bound to [A], then [A] marked offline. *)
Definition fleet_A_offline : ServerRegistry :=
  run [λ reg, register_server reg (sample_server "A" ONLINE 10 1 0);
       λ reg, register_server reg (sample_server "B" ONLINE 10 0 0);
       λ reg, register_session reg (sample_session "S1" "A" 5);
       λ reg, update_server_status reg "A" OFFLINE].

(** [A] silent for 100 s, [B] heard 50 s ago, [C] already offline. *)
Definition fleet_heartbeats : ServerRegistry :=
  run [λ reg, register_server reg (sample_server "A" ONLINE 10 1 0);
       λ reg, register_server reg (sample_server "B" ONLINE 10 0 50000000);
       λ reg, register_server reg (sample_server "C" OFFLINE 10 0 0)].


(** [A] and [B] registered, both marked offline. *)
Definition fleet_AB_offline : ServerRegistry :=
  run [λ reg, register_server reg (sample_server "A" ONLINE 10 1 0);
       λ reg, register_server reg (sample_server "B" ONLINE 10 0 0);
       λ reg, update_server_status reg "A" OFFLINE;
       λ reg, update_server_status reg "B" OFFLINE].

(** [A] and [B] online as a worker reports them: no current session. *)
Definition fleet_idle : ServerRegistry :=
  run [λ reg, register_server reg (sample_server "A" ONLINE 100 0 0);
       λ reg, register_server reg (sample_server "B" ONLINE 100 0 0)].


(** * Properties *)

(** ** Dictionary lemmas *)

Module PyDictFacts.
Import PyDict.
Section facts.
Context {V : Type}.
Implicit Types (d : list (string * V)) (k : string) (v : V).

Lemma get_set_eq k v d : get k (set k v d) = Some v.
Proof.
  induction d as [|[k' v'] d IH]; simpl.
  - by rewrite decide_True.
  - destruct (decide (k' = k)); simpl.
    + by rewrite decide_True.
    + by rewrite decide_False.
Qed.

Lemma get_set_ne k k' v d : k ≠ k' → get k' (set k v d) = get k' d.
Proof.
  intros Hne. induction d as [|[k0 v0] d IH]; simpl.
  - by rewrite decide_False.
  - destruct (decide (k0 = k)) as [->|]; simpl.
    + by rewrite !decide_False.
    + by rewrite IH.
Qed.

Lemma get_del_eq k d : get k (del k d) = None.
Proof.
  unfold del. induction d as [|[k' v'] d IH]; [done|].
  rewrite filter_cons. simpl. destruct (decide (k' ≠ k)); simpl; [|done].
  by rewrite decide_False.
Qed.

Lemma get_del_ne k k' d : k ≠ k' → get k' (del k d) = get k' d.
Proof.
  intros Hne. unfold del. induction d as [|[k0 v0] d IH]; [done|].
  rewrite filter_cons. simpl. destruct (decide (k0 ≠ k)) as [|Heq]; simpl.
  - by rewrite IH.
  - apply dec_stable in Heq as ->. by rewrite decide_False.
Qed.

Lemma get_alter_eq (f : V → V) k d : get k (alter f k d) = f <$> get k d.
Proof.
  unfold alter. induction d as [|[k' v'] d IH]; [done|].
  rewrite fmap_cons. simpl. destruct (decide (k' = k)); simpl.
  - by rewrite decide_True.
  - by rewrite decide_False.
Qed.

Lemma get_alter_ne (f : V → V) k k' d :
  k ≠ k' → get k' (alter f k d) = get k' d.
Proof.
  intros Hne. unfold alter. induction d as [|[k0 v0] d IH]; [done|].
  rewrite fmap_cons. simpl. destruct (decide (k0 = k)) as [->|]; simpl.
  - by rewrite !decide_False.
  - by rewrite IH.
Qed.

Lemma keys_alter (f : V → V) k d : keys (alter f k d) = keys d.
Proof.
  unfold keys, alter. induction d as [|[k' v'] d IH]; [done|].
  rewrite !fmap_cons, IH. simpl. by destruct (decide (k' = k)).
Qed.

Lemma get_Some_elem_of k v d : get k d = Some v → (k, v) ∈ d.
Proof.
  induction d as [|[k' v'] d IH]; [done|]. simpl.
  destruct (decide (k' = k)) as [->|].
  - intros [= ->]. left.
  - intros H. right. by apply IH.
Qed.

Lemma get_None_not_elem_of k d : get k d = None ↔ k ∉ keys d.
Proof.
  unfold keys. induction d as [|[k' v'] d IH]; simpl.
  - split; [intros _; apply not_elem_of_nil | done].
  - rewrite not_elem_of_cons. destruct (decide (k' = k)) as [->|].
    + split; [done | intros [? _]; done].
    + rewrite IH. split; [by intros ? | by intros [_ ?]].
Qed.

Lemma elem_of_get k v d : NoDup (keys d) → (k, v) ∈ d → get k d = Some v.
Proof.
  unfold keys. induction d as [|[k' v'] d IH]; [by intros _ ?%elem_of_nil|].
  rewrite fmap_cons. simpl. intros [Hk Hd]%NoDup_cons [[= -> ->]|Hin]%elem_of_cons.
  - by rewrite decide_True.
  - destruct (decide (k' = k)) as [->|]; [|by apply IH].
    exfalso. apply Hk. apply list_elem_of_fmap. by exists (k, v).
Qed.

Lemma elem_of_values v d : v ∈ values d ↔ ∃ k, (k, v) ∈ d.
Proof.
  unfold values. rewrite list_elem_of_fmap. split.
  - intros [[k v'] [-> ?]]. by exists k.
  - intros [k ?]. by exists (k, v).
Qed.

End facts.
End PyDictFacts.

(** ** Float comparison *)

Lemma float_lt_false (x y : Q) : float_lt x y = false ↔ Qle y x.
Proof.
  unfold float_lt. rewrite negb_false_iff. apply Qle_bool_iff.
Qed.

Lemma float_lt_true_le (x y : Q) : float_lt x y = true → Qle x y.
Proof.
  unfold float_lt. rewrite negb_true_iff. intros H.
  apply Qlt_le_weak, Qnot_le_lt. intros Hle.
  apply Qle_bool_iff in Hle. congruence.
Qed.

Lemma truediv_zero (a : Z) : truediv a 0 = Raise ZeroDivisionError.
Proof. reflexivity. Qed.

Lemma truediv_raises (a b : Z) (e : exn) :
  truediv a b = Raise e → e = ZeroDivisionError ∨ e = OverflowError.
Proof.
  unfold truediv. destruct (b =? 0); [intros [= <-]; by left|].
  destruct (a =? 0); [done|]. cbv zeta.
  match goal with |- context [if ?c then Raise _ else _] => destruct c end;
    [intros [= <-]; by right | done].
Qed.

(** ** Rounding *)

Lemma round_half_even_le (x D N : Z) :
  0 < D → x ≤ N * D → round_half_even x D ≤ N.
Proof.
  intros HD Hx. unfold round_half_even.
  pose proof (Z.div_mod x D ltac:(lia)) as Hdm.
  pose proof (Z.mod_pos_bound x D HD) as Hm.
  assert (Hq : x / D ≤ N) by (apply Z.div_le_upper_bound; lia).
  destruct (decide (x / D = N)) as [Heq|Hne].
  - assert (x `mod` D = 0) by nia.
    replace (2 * (x `mod` D) ?= D) with Lt; [lia|].
    symmetry. apply Z.compare_lt_iff. lia.
  - destruct (2 * (x `mod` D) ?= D); [destruct (Z.even _)|..]; lia.
Qed.

Lemma round_half_even_ge (x D N : Z) :
  0 < D → N * D ≤ x → N ≤ round_half_even x D.
Proof.
  intros HD Hx. unfold round_half_even.
  assert (Hq : N ≤ x / D) by (apply Z.div_le_lower_bound; lia).
  destruct (2 * (x `mod` D) ?= D); [destruct (Z.even _)|..]; lia.
Qed.

(** A quotient above [N - 1/2] rounds to [N] at least. *)
Lemma round_half_even_above_half (x D N : Z) :
  0 < D → (2 * N - 1) * D < 2 * x → N ≤ round_half_even x D.
Proof.
  intros HD Hx. unfold round_half_even.
  pose proof (Z.div_mod x D ltac:(lia)) as Hdm.
  pose proof (Z.mod_pos_bound x D HD) as Hm.
  destruct (Z.le_gt_cases N (x / D)) as [Hq|Hq].
  - destruct (2 * (x `mod` D) ?= D); [destruct (Z.even _)|..]; lia.
  - assert (Hq1 : x / D = N - 1) by nia.
    replace (2 * (x `mod` D) ?= D) with Gt; [lia|].
    symmetry. apply Z.compare_gt_iff. nia.
Qed.

(** The rounded quotient is within one half of the exact one. *)
Lemma round_half_even_error (x D : Z) :
  0 < D → 2 * Z.abs (round_half_even x D * D - x) ≤ D.
Proof.
  intros HD. unfold round_half_even.
  pose proof (Z.div_mod x D ltac:(lia)) as Hdm.
  pose proof (Z.mod_pos_bound x D HD) as Hm.
  destruct (Z.compare_spec (2 * (x `mod` D)) D) as [He|Hl|Hg];
    [destruct (Z.even (x / D))|..]; nia.
Qed.

Lemma round_half_even_proportional (N D N' D' : Z) :
  0 < D → 0 < D' → N * D' = N' * D →
  round_half_even N D = round_half_even N' D'.
Proof.
  intros HD HD' Heq. unfold round_half_even.
  pose proof (Z.div_mod N D ltac:(lia)) as Hdm.
  pose proof (Z.mod_pos_bound N D HD) as Hm.
  pose proof (Z.div_mod N' D' ltac:(lia)) as Hdm'.
  pose proof (Z.mod_pos_bound N' D' HD') as Hm'.
  assert (Hq : N / D = N' / D').
  { apply (Z.div_unique N' D' (N / D) (N' - D' * (N / D))); [|lia].
    left. nia. }
  rewrite <- Hq in *.
  assert (Hr : (N mod D) * D' = (N' mod D') * D) by nia.
  destruct (Z.compare_spec (2 * (N `mod` D)) D) as [He|Hl|Hg];
    destruct (Z.compare_spec (2 * (N' `mod` D')) D') as [He'|Hl'|Hg'];
    try done; exfalso; nia.
Qed.

(** The quotient of two positive integers below [2 ^ 26]: its scale
    [2 ^ - k] is that of the binade of the exact quotient, and it does not
    overflow. *)
Lemma truediv_small (a b : Z) :
  0 < a < 2 ^ 26 → 0 < b < 2 ^ 26 →
  ∃ k, 27 ≤ k ≤ 78
       ∧ b * 2 ^ 52 ≤ a * 2 ^ k < b * 2 ^ 53
       ∧ truediv a b
         = Return (Qmake (round_half_even (a * 2 ^ k) b) (Z.to_pos (2 ^ k))).
Proof.
  intros Ha Hb. unfold truediv.
  rewrite (proj2 (Z.eqb_neq b 0)) by lia.
  rewrite (proj2 (Z.eqb_neq a 0)) by lia. cbv zeta.
  rewrite (Z.abs_eq a), (Z.abs_eq b) by lia.
  rewrite (Z.sgn_pos a), (Z.sgn_pos b) by lia.
  pose proof (Z.log2_spec a ltac:(lia)) as Hla.
  pose proof (Z.log2_spec b ltac:(lia)) as Hlb.
  assert (Hla26 : 0 ≤ Z.log2 a < 26).
  { split; [apply Z.log2_nonneg|]. apply Z.log2_lt_pow2; lia. }
  assert (Hlb26 : 0 ≤ Z.log2 b < 26).
  { split; [apply Z.log2_nonneg|]. apply Z.log2_lt_pow2; lia. }
  set (la := Z.log2 a) in *. set (lb := Z.log2 b) in *.
  set (e0 := la - lb).
  set (below := if 0 <=? e0 then a <? b * 2 ^ e0 else a * 2 ^ (- e0) <? b).
  set (e := if below then e0 - 1 else e0).
  assert (He : e0 - 1 ≤ e ≤ e0) by (unfold e; destruct below; lia).
  rewrite (Z.max_l (e - 52) (-1074)) by lia.
  replace (0 <=? e - 52) with false by (symmetry; apply Z.leb_gt; lia).
  simpl andb. cbv iota. unfold scale2.
  replace (0 <=? e - 52) with false by (symmetry; apply Z.leb_gt; lia).
  replace (- (e - 52)) with (52 - e) by lia.
  replace (1 * 1 * round_half_even (a * 2 ^ (52 - e)) b)
    with (round_half_even (a * 2 ^ (52 - e)) b) by lia.
  exists (52 - e). split; [lia|]. split; [|done].
  assert (Hup : a * 2 ^ (52 - e0) < b * 2 ^ 53).
  { assert (2 ^ (la + 1) * 2 ^ (52 - e0) = 2 ^ lb * 2 ^ 53) as Hpow.
    { rewrite <- !Z.pow_add_r by lia. f_equal. lia. }
    assert (0 < 2 ^ (52 - e0)) by (apply Z.pow_pos_nonneg; lia).
    nia. }
  assert (Hlow : b * 2 ^ 52 ≤ a * 2 ^ (53 - e0)).
  { assert (2 ^ la * 2 ^ (53 - e0) = 2 ^ (lb + 1) * 2 ^ 52) as Hpow.
    { rewrite <- !Z.pow_add_r by lia. f_equal. lia. }
    assert (0 < 2 ^ (53 - e0)) by (apply Z.pow_pos_nonneg; lia).
    nia. }
  assert (Hdbl : 2 ^ (53 - e0) = 2 * 2 ^ (52 - e0)).
  { replace (53 - e0) with (1 + (52 - e0)) by lia.
    rewrite Z.pow_add_r by lia. done. }
  unfold e, below.
  destruct (Z.leb_spec 0 e0) as [Hpos|Hneg].
  - assert (2 ^ 52 = 2 ^ e0 * 2 ^ (52 - e0)) as H52.
    { rewrite <- Z.pow_add_r by lia. f_equal. lia. }
    assert (0 < 2 ^ (52 - e0)) by (apply Z.pow_pos_nonneg; lia).
    destruct (Z.ltb_spec a (b * 2 ^ e0)) as [Hlt|Hge].
    + replace (52 - (e0 - 1)) with (53 - e0) by lia.
      split; [done|]. rewrite Hdbl. nia.
    + split; [nia | done].
  - assert (2 ^ (52 - e0) = 2 ^ (- e0) * 2 ^ 52) as H52.
    { rewrite <- Z.pow_add_r by lia. f_equal. lia. }
    destruct (Z.ltb_spec (a * 2 ^ (- e0)) b) as [Hlt|Hge].
    + replace (52 - (e0 - 1)) with (53 - e0) by lia.
      split; [done|]. rewrite Hdbl, H52. nia.
    + split; [rewrite H52; nia | done].
Qed.

Lemma pow2_lt_double (k k' : Z) : 0 ≤ k < k' → 2 * 2 ^ k ≤ 2 ^ k'.
Proof.
  intros H. replace k' with (1 + k + (k' - k - 1)) by lia.
  rewrite !Z.pow_add_r by lia.
  assert (0 < 2 ^ k) by (apply Z.pow_pos_nonneg; lia).
  assert (0 < 2 ^ (k' - k - 1)) by (apply Z.pow_pos_nonneg; lia).
  change (2 ^ 1) with 2. nia.
Qed.

(** The scale of the quotient of small integers exceeds their product. *)
Lemma truediv_small_scale (a b d P : Z) :
  0 < a < 2 ^ 26 → 0 < b → 0 < d < 2 ^ 26 → b * 2 ^ 52 ≤ a * P →
  b * d < P.
Proof.
  intros Ha Hb Hd HL.
  destruct (Z.lt_ge_cases (b * 2 ^ 26) P) as [Hlt|Hge].
  - assert (b * d < b * 2 ^ 26) by (apply Z.mul_lt_mono_pos_l; lia). lia.
  - exfalso.
    assert (a * P ≤ a * (b * 2 ^ 26)) by (apply Z.mul_le_mono_nonneg_l; lia).
    assert (a * (b * 2 ^ 26) < 2 ^ 26 * (b * 2 ^ 26)).
    { apply Z.mul_lt_mono_pos_r; lia. }
    change (2 ^ 52) with (2 ^ 26 * 2 ^ 26) in HL. lia.
Qed.

(** Quotients of small integers are ordered as the fractions are. *)
Lemma truediv_small_lt (a b c d : Z) (q q' : Q) :
  0 ≤ a < 2 ^ 26 → 0 < b < 2 ^ 26 → 0 ≤ c < 2 ^ 26 → 0 < d < 2 ^ 26 →
  truediv a b = Return q → truediv c d = Return q' →
  a * d < c * b → Qlt q q'.
Proof.
  intros Ha Hb Hc Hd Hq Hq' Hlt.
  assert (Hc0 : 0 < c).
  { destruct (Z.eq_dec c 0) as [->|]; [|lia].
    assert (0 ≤ a * d) by (apply Z.mul_nonneg_nonneg; lia). lia. }
  destruct (truediv_small c d) as (k' & Hk' & [HL' HU'] & Hd'); [lia..|].
  rewrite Hd' in Hq'. injection Hq' as <-.
  assert (HP' : 0 < 2 ^ k') by (apply Z.pow_pos_nonneg; lia).
  pose proof (round_half_even_error (c * 2 ^ k') d ltac:(lia)) as He'.
  pose proof (round_half_even_ge (c * 2 ^ k') d (2 ^ 52) ltac:(lia)) as Hm'.
  set (m' := round_half_even (c * 2 ^ k') d) in *.
  destruct (decide (a = 0)) as [->|Ha0].
  - unfold truediv in Hq. rewrite (proj2 (Z.eqb_neq b 0)) in Hq by lia.
    simpl in Hq. injection Hq as <-.
    unfold Qlt. simpl. rewrite Z2Pos.id by done. lia.
  - destruct (truediv_small a b) as (k & Hk & [HL HU] & Hd0); [lia..|].
    rewrite Hd0 in Hq. injection Hq as <-.
    assert (HP : 0 < 2 ^ k) by (apply Z.pow_pos_nonneg; lia).
    pose proof (round_half_even_error (a * 2 ^ k) b ltac:(lia)) as He.
    set (m := round_half_even (a * 2 ^ k) b) in *.
    unfold Qlt. simpl. rewrite !Z2Pos.id by done.
    set (P := 2 ^ k) in *. set (P' := 2 ^ k') in *.
    pose proof (truediv_small_scale a b d P ltac:(lia) ltac:(lia) ltac:(lia) HL)
      as HbP.
    pose proof (truediv_small_scale c d b P' ltac:(lia) ltac:(lia) ltac:(lia)
                  HL') as HdP'.
    destruct (Z.lt_ge_cases (m * P') (m' * P)) as [|Hge]; [done|]. exfalso.
    assert (0 < b * d) by (apply Z.mul_pos_pos; lia).
    assert (0 < P * P') by (apply Z.mul_pos_pos; lia).
    assert (S1 : (2 * m * b) * (d * P') ≤ (2 * a * P + b) * (d * P')).
    { apply Z.mul_le_mono_nonneg_r; [|lia]. apply Z.mul_nonneg_nonneg; lia. }
    assert (S2 : (2 * c * P' - d) * (b * P) ≤ (2 * m' * d) * (b * P)).
    { apply Z.mul_le_mono_nonneg_r; [|lia]. apply Z.mul_nonneg_nonneg; lia. }
    assert (S3 : (m' * P) * (2 * (b * d)) ≤ (m * P') * (2 * (b * d))).
    { apply Z.mul_le_mono_nonneg_r; lia. }
    assert (S4 : 1 * (P * P') ≤ (c * b - a * d) * (P * P')).
    { apply Z.mul_le_mono_nonneg_r; lia. }
    assert (S5 : (b * d) * P' < P * P').
    { apply Z.mul_lt_mono_pos_r; lia. }
    assert (S6 : (d * b) * P < P' * P).
    { apply Z.mul_lt_mono_pos_r; lia. }
    lia.
Qed.

Lemma truediv_small_eq (a b c d : Z) (q q' : Q) :
  0 ≤ a < 2 ^ 26 → 0 < b < 2 ^ 26 → 0 ≤ c < 2 ^ 26 → 0 < d < 2 ^ 26 →
  truediv a b = Return q → truediv c d = Return q' →
  a * d = c * b → q = q'.
Proof.
  intros Ha Hb Hc Hd Hq Hq' Heq.
  destruct (decide (a = 0)) as [->|Ha0].
  - assert (c = 0) as ->.
    { destruct (Z.eq_dec c 0) as [|Hc0]; [done|]. exfalso.
      assert (0 < c * b) by (apply Z.mul_pos_pos; lia). lia. }
    unfold truediv in *.
    rewrite (proj2 (Z.eqb_neq b 0)) in Hq by lia.
    rewrite (proj2 (Z.eqb_neq d 0)) in Hq' by lia.
    simpl in *. congruence.
  - assert (Hc0 : c ≠ 0).
    { intros ->. assert (0 < a * d) by (apply Z.mul_pos_pos; lia). lia. }
    destruct (truediv_small a b) as (k & Hk & [HL HU] & Hd0); [lia..|].
    destruct (truediv_small c d) as (k' & Hk' & [HL' HU'] & Hd'); [lia..|].
    rewrite Hd0 in Hq. rewrite Hd' in Hq'.
    injection Hq as <-. injection Hq' as <-.
    assert (HP : 0 < 2 ^ k) by (apply Z.pow_pos_nonneg; lia).
    assert (HP' : 0 < 2 ^ k') by (apply Z.pow_pos_nonneg; lia).
    assert (k = k') as <-.
    { destruct (Z.lt_trichotomy k k') as [Hlt|[?|Hgt]]; [|done|]; exfalso.
      - pose proof (pow2_lt_double k k' ltac:(lia)) as Hdbl.
        set (P := 2 ^ k) in *. set (P' := 2 ^ k') in *.
        change (2 ^ 53) with (2 * 2 ^ 52) in *. set (W := 2 ^ 52) in *.
        assert (T1 : b * (c * P') < b * (d * (2 * W)))
          by (apply Z.mul_lt_mono_pos_l; lia).
        assert (T2 : d * (b * W) ≤ d * (a * P))
          by (apply Z.mul_le_mono_nonneg_l; lia).
        assert (T3 : (c * b) * (2 * P) ≤ (c * b) * P').
        { apply Z.mul_le_mono_nonneg_l; [|lia].
          apply Z.mul_nonneg_nonneg; lia. }
        assert (T4 : (a * d) * P = (c * b) * P) by (by rewrite Heq).
        lia.
      - pose proof (pow2_lt_double k' k ltac:(lia)) as Hdbl.
        set (P := 2 ^ k) in *. set (P' := 2 ^ k') in *.
        change (2 ^ 53) with (2 * 2 ^ 52) in *. set (W := 2 ^ 52) in *.
        assert (T1 : d * (a * P) < d * (b * (2 * W)))
          by (apply Z.mul_lt_mono_pos_l; lia).
        assert (T2 : b * (d * W) ≤ b * (c * P'))
          by (apply Z.mul_le_mono_nonneg_l; lia).
        assert (T3 : (a * d) * (2 * P') ≤ (a * d) * P).
        { apply Z.mul_le_mono_nonneg_l; [|lia].
          apply Z.mul_nonneg_nonneg; lia. }
        assert (T4 : (a * d) * P' = (c * b) * P') by (by rewrite Heq).
        lia. }
    f_equal. apply round_half_even_proportional; [lia | lia |].
    rewrite <- !Z.mul_assoc, (Z.mul_comm (2 ^ k) d), (Z.mul_comm (2 ^ k) b).
    rewrite !Z.mul_assoc. by rewrite Heq.
Qed.

(** ** [sorted] *)

Section sorted_facts.
Context {A : Type}.
Implicit Types (x y h : Q * A) (l : list (Q * A)).

Lemma insert_by_key_perm x l : insert_by_key x l ≡ₚ x :: l.
Proof.
  induction l as [|y l IH]; simpl; [done|].
  destruct (float_lt y.1 x.1); [|done].
  rewrite IH. apply perm_swap.
Qed.

Lemma sort_by_key_perm l : sort_by_key l ≡ₚ l.
Proof.
  induction l as [|x l IH]; simpl; [done|].
  unfold sort_by_key in *. simpl. by rewrite insert_by_key_perm, IH.
Qed.

Lemma head_insert_by_key_min x l h :
  (∀ h0, head l = Some h0 → ∀ y, y ∈ l → Qle h0.1 y.1) →
  head (insert_by_key x l) = Some h →
  ∀ y, y ∈ x :: l → Qle h.1 y.1.
Proof.
  intros Hl. destruct l as [|y0 l]; simpl.
  - intros [= <-] y ->%list_elem_of_singleton. apply Qle_refl.
  - specialize (Hl y0 eq_refl).
    destruct (float_lt y0.1 x.1) eqn:Hlt; simpl; intros [= <-] y Hy.
    + apply elem_of_cons in Hy as [->|Hy]; [|by apply Hl].
      by apply float_lt_true_le.
    + apply float_lt_false in Hlt.
      apply elem_of_cons in Hy as [->|Hy]; [apply Qle_refl|].
      eapply Qle_trans; [exact Hlt|]. by apply Hl.
Qed.

Lemma head_sort_by_key_min l h :
  head (sort_by_key l) = Some h → h ∈ l ∧ ∀ y, y ∈ l → Qle h.1 y.1.
Proof.
  revert h. induction l as [|x l IH]; intros h; [done|].
  intros Hh. split.
  - rewrite <- (sort_by_key_perm (x :: l)). by eapply head_Some_elem_of.
  - intros y Hy. change (sort_by_key (x :: l))
      with (insert_by_key x (sort_by_key l)) in Hh.
    eapply head_insert_by_key_min; [|exact Hh|].
    + intros h0 Hh0 y' Hy'. apply (IH h0 Hh0).
      by rewrite <- (sort_by_key_perm l).
    + by rewrite (sort_by_key_perm l).
Qed.

Lemma sort_by_key_nil l : sort_by_key l = [] → l = [].
Proof.
  intros H. apply Permutation_nil_r. by rewrite <- H, sort_by_key_perm.
Qed.

Context (key : A → result Q).

Lemma decorate_Return (l : list A) kl :
  decorate key l = Return kl →
  kl.*2 = l ∧ Forall (λ p, key p.2 = Return p.1) kl.
Proof.
  revert kl. induction l as [|a l IH]; simpl; intros kl.
  - by intros [= <-].
  - destruct (key a) as [k|] eqn:Hk; simpl; [|done].
    destruct (decorate key l) as [kl'|]; simpl; [|done].
    intros [= <-]. destruct (IH kl' eq_refl) as [<- HF].
    split; [done|]. by constructor.
Qed.

Lemma decorate_Raise (l : list A) e :
  decorate key l = Raise e → ∃ a : A, a ∈ l ∧ key a = Raise e.
Proof.
  induction l as [|a l IH]; simpl; [done|].
  destruct (key a) as [k|e'] eqn:Hk; simpl.
  - destruct (decorate key l) as [kl'|e']; simpl; [done|].
    intros [= <-]. destruct (IH eq_refl) as (b & ? & ?).
    exists b. split; [by right | done].
  - intros [= <-]. exists a. split; [by left | done].
Qed.

Lemma decorate_total (l : list A) :
  (∀ a : A, a ∈ l → ∃ k, key a = Return k) → ∃ kl, decorate key l = Return kl.
Proof.
  induction l as [|a l IH]; intros H; simpl; [by eexists|].
  destruct (H a) as [k ->]; [by left|].
  destruct IH as [kl ->]; [intros b ?; apply H; by right|].
  by eexists.
Qed.

Lemma decorate_raises_first (l : list A) (a : A) e :
  a ∈ l → key a = Raise e → ∃ e', decorate key l = Raise e'.
Proof.
  induction l as [|b l IH]; [by intros ?%elem_of_nil|].
  intros [->|Hin]%elem_of_cons Hx; simpl.
  - rewrite Hx. by eexists.
  - destruct (key b); simpl; [|by eexists].
    destruct (IH Hin Hx) as [e' ->]. by eexists.
Qed.

End sorted_facts.

Section sorted_results.
Context {A : Type} (key : A → result Q).

Lemma sorted_Return_perm (l l' : list A) :
  sorted key l = Return l' → l' ≡ₚ l.
Proof.
  unfold sorted. destruct (decorate key l) as [kl|] eqn:Hd; simpl; [|done].
  intros [= <-]. apply decorate_Return in Hd as [<- _].
  by rewrite sort_by_key_perm.
Qed.

Lemma sorted_head_min (l l' : list A) (a : A) :
  sorted key l = Return l' → head l' = Some a →
  a ∈ l ∧ ∃ r, key a = Return r ∧
    ∀ b, b ∈ l → ∃ r', key b = Return r' ∧ Qle r r'.
Proof.
  unfold sorted. destruct (decorate key l) as [kl|] eqn:Hd; simpl; [|done].
  intros [= <-] Hhead. apply decorate_Return in Hd as [<- Hkeys].
  destruct (sort_by_key kl) as [|[r a'] rest] eqn:Hs; simplify_eq/=.
  destruct (head_sort_by_key_min kl (r, a)) as [Hin Hmin]; [by rewrite Hs|].
  rewrite Forall_forall in Hkeys. split; [|exists r; split].
  - apply list_elem_of_fmap. by exists (r, a).
  - by apply (Hkeys (r, a)).
  - intros b [[r' b'] [-> Hb]]%list_elem_of_fmap. exists r'. split.
    + by apply (Hkeys (r', b')).
    + by apply (Hmin (r', b')).
Qed.

Lemma sorted_Raise (l : list A) (e : exn) :
  sorted key l = Raise e → ∃ a, a ∈ l ∧ key a = Raise e.
Proof.
  unfold sorted. destruct (decorate key l) as [kl|e'] eqn:Hd; simpl; [done|].
  intros [= <-]. by apply decorate_Raise.
Qed.

Lemma sorted_raises (l : list A) (a : A) (e : exn) :
  a ∈ l → key a = Raise e → ∃ e', sorted key l = Raise e'.
Proof.
  intros Hin Ha. unfold sorted.
  destruct (decorate_raises_first key l a e Hin Ha) as [e' ->]. by exists e'.
Qed.

Lemma sorted_total (l : list A) :
  (∀ a, a ∈ l → ∃ k, key a = Return k) → ∃ l', sorted key l = Return l'.
Proof.
  intros H. unfold sorted. destruct (decorate_total key l H) as [kl ->].
  by eexists.
Qed.

End sorted_results.

(** ** The balancer *)

Lemma elem_of_available (reg : ServerRegistry) (s : RuntimeServer) :
  s ∈ filter (λ s, RuntimeServer.status s = ONLINE) (list_servers reg)
  ↔ online_in reg s.
Proof. unfold online_in. rewrite list_elem_of_filter. tauto. Qed.

Lemma select_server_None (reg : ServerRegistry) :
  select_server reg = Return None ↔ ∀ s, ¬ online_in reg s.
Proof.
  unfold select_server. cbv zeta.
  pose proof (elem_of_available reg) as Hav.
  destruct (filter _ (list_servers reg)) as [|a l] eqn:Hf.
  - split; [|done]. intros _ s Hs. apply Hav in Hs. by apply elem_of_nil in Hs.
  - split.
    + destruct (sorted load_ratio (a :: l)) as [l'|] eqn:Hs; simpl; [|done].
      intros [= Hhead]. apply sorted_Return_perm in Hs.
      destruct l'; [|done]. by apply Permutation_nil_cons in Hs.
    + intros Hno. exfalso. apply (Hno a), Hav. left.
Qed.

Lemma select_server_Some (reg : ServerRegistry) (s : RuntimeServer) :
  select_server reg = Return (Some s) →
  online_in reg s ∧ ∃ r, load_ratio s = Return r ∧
    ∀ s', online_in reg s' → ∃ r', load_ratio s' = Return r' ∧ Qle r r'.
Proof.
  unfold select_server. cbv zeta.
  pose proof (elem_of_available reg) as Hav.
  destruct (filter _ (list_servers reg)) as [|a l] eqn:Hf; [done|].
  destruct (sorted load_ratio (a :: l)) as [l'|] eqn:Hs; simpl; [|done].
  intros [= Hhead].
  destruct (sorted_head_min _ _ _ _ Hs Hhead) as (Hin & r & Hr & Hmin).
  split; [by apply Hav|]. exists r. split; [done|].
  intros s' Hs'. apply Hmin. by apply Hav.
Qed.

Lemma select_server_raises (reg : ServerRegistry) (s : RuntimeServer) e :
  online_in reg s → load_ratio s = Raise e → ∃ e', select_server reg = Raise e'.
Proof.
  intros Hs He. unfold select_server. cbv zeta.
  apply elem_of_available in Hs.
  destruct (filter _ (list_servers reg)) as [|a l] eqn:Hf;
    [by apply elem_of_nil in Hs|].
  destruct (sorted_raises load_ratio _ _ _ Hs He) as [e' ->]. by exists e'.
Qed.

Lemma select_server_returns (reg : ServerRegistry) :
  (∀ s, online_in reg s → ∃ r, load_ratio s = Return r) →
  ∃ o, select_server reg = Return o.
Proof.
  intros H. unfold select_server. cbv zeta.
  pose proof (elem_of_available reg) as Hav.
  destruct (filter _ (list_servers reg)) as [|a l] eqn:Hf; [by eexists|].
  destruct (sorted_total load_ratio (a :: l)) as [l' ->]; [|by eexists].
  intros b Hb. by apply H, Hav.
Qed.

(** ** The registry *)

Lemma register_server_spec (reg : ServerRegistry) (s : RuntimeServer) :
  let reg' := (register_server reg s).1 in
  (register_server reg s).2 = true
  ∧ get_server reg' (RuntimeServer.server_id s) = Some s
  ∧ _server_sessions reg' !! RuntimeServer.server_id s = Some []
  ∧ _sessions reg' = _sessions reg.
Proof.
  simpl. unfold get_server. simpl.
  rewrite PyDictFacts.get_set_eq, lookup_insert_eq. done.
Qed.

Lemma register_session_unknown_index (reg : ServerRegistry)
    (sess : SessionInfo) :
  _server_sessions reg !! SessionInfo.server_id sess = None →
  register_session reg sess =
    (mkRegistry (_servers reg)
       (<[SessionInfo.session_id sess := sess]> (_sessions reg))
       (_server_sessions reg),
     false).
Proof. intros H. unfold register_session. by rewrite H. Qed.

Lemma register_session_known_index (reg : ServerRegistry) (sess : SessionInfo)
    (ids : list string) :
  _server_sessions reg !! SessionInfo.server_id sess = Some ids →
  register_session reg sess =
    (mkRegistry (_servers reg)
       (<[SessionInfo.session_id sess := sess]> (_sessions reg))
       (<[SessionInfo.server_id sess := ids ++ [SessionInfo.session_id sess]]>
          (_server_sessions reg)),
     true).
Proof. intros H. unfold register_session. by rewrite H. Qed.

Lemma drop_sessions_lookup (ids : list string) (tbl : gmap string SessionInfo)
    (sid : string) :
  drop_sessions ids tbl !! sid = if decide (sid ∈ ids) then None else tbl !! sid.
Proof.
  unfold drop_sessions. revert tbl.
  induction ids as [|i ids IH]; intros tbl; cbn [foldl].
  - destruct (decide (sid ∈ [])) as [Hin|]; [by apply elem_of_nil in Hin | done].
  - rewrite IH. destruct (decide (sid ∈ ids)) as [Hin|Hnin].
    + rewrite decide_True; [done | by right].
    + destruct (decide (i = sid)) as [->|Hne].
      * rewrite lookup_delete_eq, decide_True; [done | left].
      * rewrite lookup_delete_ne by done.
        rewrite decide_False; [done|].
        intros [?|?]%elem_of_cons; congruence.
Qed.

Lemma unregister_server_absent (reg : ServerRegistry) (K : string) :
  get_server reg K = None → unregister_server reg K = (reg, false).
Proof. unfold get_server, unregister_server. by intros ->. Qed.

Lemma unregister_server_present (reg : ServerRegistry) (K : string)
    (s : RuntimeServer) :
  get_server reg K = Some s →
  unregister_server reg K =
    (mkRegistry (PyDict.del K (_servers reg))
       (drop_sessions (default [] (_server_sessions reg !! K)) (_sessions reg))
       (delete K (_server_sessions reg)),
     true).
Proof. unfold get_server, unregister_server. by intros ->. Qed.

(** C2 (defect in the code). Re-registration is claimed to keep the session
    index of the server. With [A] registered and [S1] listed under it,
    registering a payload with id [A] again succeeds and overwrites the
    stored entry, but the index of [A] is reset to the empty list while [S1]
    stays in the session table, bound to [A] and listed nowhere. *)
Theorem register_server_again_resets_index :
  get_server fleet_A "A" = Some (sample_server "A" ONLINE 10 1 0)
  ∧ _server_sessions fleet_A !! "A" = Some ["S1"]
  ∧ (register_server fleet_A (sample_server "A" BUSY 20 1 100)).2 = true
  ∧ get_server (register_server fleet_A (sample_server "A" BUSY 20 1 100)).1 "A"
    = Some (sample_server "A" BUSY 20 1 100)
  ∧ _server_sessions
      (register_server fleet_A (sample_server "A" BUSY 20 1 100)).1 !! "A"
    = Some []
  ∧ _sessions (register_server fleet_A (sample_server "A" BUSY 20 1 100)).1
      !! "S1"
    = Some (sample_session "S1" "A" 5).
Proof. vm_compute. done. Qed.

(** C3 (defect in the code). Registering a session for an unknown server is
    claimed to fail and leave the registry unchanged. The call does return
    failure, but the session has been stored before the index lookup raises:
    afterwards [S2] is in the session table and references the server
    [ghost], which does not exist. *)
Theorem register_session_unknown_server_keeps_session :
  get_server fleet_A "ghost" = None
  ∧ get_session fleet_A "S2" = None
  ∧ (register_session fleet_A (sample_session "S2" "ghost" 7)).2 = false
  ∧ get_session (register_session fleet_A (sample_session "S2" "ghost" 7)).1 "S2"
    = Some (sample_session "S2" "ghost" 7)
  ∧ get_server (register_session fleet_A (sample_session "S2" "ghost" 7)).1
      "ghost" = None.
Proof. vm_compute. done. Qed.

(** C5, as stated, fails: registering [S1] a second time succeeds, replaces
    the stored session (its creation time changes from 5 to 9) and lists
    [S1] twice under [A]. *)
Lemma register_session_duplicate_accepted :
  get_session fleet_A "S1" = Some (sample_session "S1" "A" 5)
  ∧ (register_session fleet_A (sample_session "S1" "A" 9)).2 = true
  ∧ get_session (register_session fleet_A (sample_session "S1" "A" 9)).1 "S1"
    = Some (sample_session "S1" "A" 9)
  ∧ _server_sessions (register_session fleet_A (sample_session "S1" "A" 9)).1
      !! "A" = Some ["S1"; "S1"].
Proof. vm_compute. done. Qed.

(** C5, amended. [register_session] makes no duplicate check: for a payload
    whose session id is already registered and whose server has a session
    index, the call succeeds and replaces the stored session by the payload;
    the other sessions and the server table are unchanged. *)
Theorem register_session_existing_id_replaces
    (reg : ServerRegistry) (sess old : SessionInfo) (ids : list string) :
  get_session reg (SessionInfo.session_id sess) = Some old →
  _server_sessions reg !! SessionInfo.server_id sess = Some ids →
  (register_session reg sess).2 = true
  ∧ get_session (register_session reg sess).1 (SessionInfo.session_id sess)
    = Some sess
  ∧ (∀ sid, sid ≠ SessionInfo.session_id sess →
       get_session (register_session reg sess).1 sid = get_session reg sid)
  ∧ _servers (register_session reg sess).1 = _servers reg.
Proof.
  intros _ Hidx. rewrite (register_session_known_index _ _ _ Hidx).
  unfold get_session. simpl. rewrite lookup_insert_eq.
  repeat split. intros sid Hne. by rewrite lookup_insert_ne.
Qed.

Lemma register_session_existing_id_replaces_witness :
  (register_session fleet_A (sample_session "S1" "A" 9)).2 = true
  ∧ get_session (register_session fleet_A (sample_session "S1" "A" 9)).1 "S1"
    = Some (sample_session "S1" "A" 9)
  ∧ (∀ sid, sid ≠ "S1" →
       get_session (register_session fleet_A (sample_session "S1" "A" 9)).1 sid
       = get_session fleet_A sid)
  ∧ _servers (register_session fleet_A (sample_session "S1" "A" 9)).1
    = _servers fleet_A.
Proof.
  apply (register_session_existing_id_replaces fleet_A
           (sample_session "S1" "A" 9) (sample_session "S1" "A" 5) ["S1"]);
    reflexivity.
Defined.

(** C7, as stated, fails on registry states the operations produce. After
    [A] has been registered again, unregistering [A] succeeds and yet [S1],
    whose server is [A], remains in the session table. And where [S1] was
    bound to [B] before it was bound to [A], unregistering [A] removes [S1]
    from the session table and leaves its id in the index of [B]. *)
Lemma unregister_server_leaves_unindexed_session :
  (is_Some (get_server fleet_A_twice "A")
   ∧ (unregister_server fleet_A_twice "A").2 = true
   ∧ get_session (unregister_server fleet_A_twice "A").1 "S1"
     = Some (sample_session "S1" "A" 5)
   ∧ SessionInfo.server_id (sample_session "S1" "A" 5) = "A")
  ∧ (get_session fleet_back "S1" = Some (sample_session "S1" "A" 6)
     ∧ _server_sessions fleet_back !! "A" = Some ["S1"]
     ∧ (unregister_server fleet_back "A").2 = true
     ∧ _server_sessions (unregister_server fleet_back "A").1 !! "B"
       = Some ["S1"]).
Proof.
  split; [vm_compute; split; [by eexists | done]|].
  split_and!; reflexivity.
Qed.

(** C7, amended. In every registry state where each session bound to [K] is
    listed in the index of [K] and in no other index: if [K] is absent
    [unregister_server K] fails and changes nothing; if [K] is present it
    succeeds, removes the server entry, the index entry and every session
    listed in that index, and afterwards no session bound to [K] remains in
    the session table and no index lists the id of a session that was bound
    to [K]. *)
Theorem unregister_server_cascade (reg : ServerRegistry) (K : string) :
  indexed_under reg K →
  indexed_only_under reg K →
  (get_server reg K = None → unregister_server reg K = (reg, false))
  ∧ (is_Some (get_server reg K) →
     (unregister_server reg K).2 = true
     ∧ get_server (unregister_server reg K).1 K = None
     ∧ _server_sessions (unregister_server reg K).1 !! K = None
     ∧ (∀ sid, sid ∈ default [] (_server_sessions reg !! K) →
          get_session (unregister_server reg K).1 sid = None)
     ∧ (∀ sid sess,
          get_session (unregister_server reg K).1 sid = Some sess →
          SessionInfo.server_id sess ≠ K)
     ∧ (∀ K' sid sess,
          get_session reg sid = Some sess → SessionInfo.server_id sess = K →
          sid ∉ default [] (_server_sessions (unregister_server reg K).1 !! K'))).
Proof.
  intros Hidx Honly. split; [apply unregister_server_absent|].
  intros [s Hs]. rewrite (unregister_server_present _ _ _ Hs).
  unfold get_server, get_session. simpl.
  split_and!.
  - done.
  - apply PyDictFacts.get_del_eq.
  - apply lookup_delete_eq.
  - intros sid Hin. rewrite drop_sessions_lookup. by rewrite decide_True.
  - intros sid sess. rewrite drop_sessions_lookup.
    destruct (decide (sid ∈ _)) as [|Hnin]; [done|].
    intros Hsess HK. apply Hnin. by eapply Hidx.
  - intros K' sid sess Hsess HK.
    destruct (decide (K' = K)) as [->|Hne].
    + rewrite lookup_delete_eq. simpl. apply not_elem_of_nil.
    + rewrite lookup_delete_ne by done. by eapply Honly.
Qed.

Lemma fleet_A_indexed : indexed_under fleet_A "A".
Proof.
  intros sid sess. vm_compute default. unfold get_session.
  change (_sessions fleet_A)
    with (<["S1" := sample_session "S1" "A" 5]> (∅ : gmap string SessionInfo)).
  intros [[<- _]|[_ H]]%lookup_insert_Some _; [left|].
  by rewrite lookup_empty in H.
Defined.

Lemma fleet_A_indexed_only : indexed_only_under fleet_A "A".
Proof.
  intros K' sid sess Hne _ _.
  change (_server_sessions fleet_A)
    with (<["A" := ["S1"]]> (∅ : gmap string (list string))).
  rewrite lookup_insert_ne, lookup_empty by done. apply not_elem_of_nil.
Defined.

Lemma unregister_server_cascade_witness :
  (unregister_server fleet_A "A").2 = true
  ∧ get_server (unregister_server fleet_A "A").1 "A" = None
  ∧ _server_sessions (unregister_server fleet_A "A").1 !! "A" = None
  ∧ get_session (unregister_server fleet_A "A").1 "S1" = None
  ∧ ∀ K', "S1" ∉ default []
                   (_server_sessions (unregister_server fleet_A "A").1 !! K').
Proof.
  destruct (unregister_server_cascade fleet_A "A" fleet_A_indexed
              fleet_A_indexed_only) as [_ Hpresent].
  destruct Hpresent as (Hok & Hsrv & Hix & Hsess & _ & Hnone).
  - by eexists.
  - split_and!; [exact Hok | exact Hsrv | exact Hix | |].
    + apply Hsess. vm_compute default. left.
    + intros K'.
      apply (Hnone K' "S1" (sample_session "S1" "A" 5)); reflexivity.
Defined.

(** ** The balancer: selection *)

(** C6, as stated, fails: the balancer compares the quotients as Python
    computes them, rounded to doubles. In [fleet_round] it returns [A],
    registered first, although [B] is online and the load ratio of [B] is
    smaller: the two ratios round to one double. *)
Lemma select_server_returns_larger_ratio :
  select_server fleet_round
  = Return (Some (sample_server "A" ONLINE 1 9007199254740993 0))
  ∧ sample_server "B" ONLINE 1 9007199254740992 0 ∈ list_servers fleet_round
  ∧ RuntimeServer.status (sample_server "B" ONLINE 1 9007199254740992 0)
    = ONLINE
  ∧ Qlt (exact_ratio (sample_server "B" ONLINE 1 9007199254740992 0))
        (exact_ratio (sample_server "A" ONLINE 1 9007199254740993 0)).
Proof.
  split_and!; [by vm_compute | | reflexivity | reflexivity].
  vm_compute. right. left.
Qed.

(** C6, amended. [select_server] returns nothing exactly when no server is
    online; a server it returns is a registered server with status online
    such that no online server has a smaller quotient
    [current_sessions / max_sessions] as Python computes it; and when the
    session counts of all online servers are at least 0 and below [2 ^ 26],
    with [max_sessions] not 0, its exact load ratio is least among the
    online servers. *)
Theorem select_server_least_loaded_online (reg : ServerRegistry) :
  (select_server reg = Return None ↔
     ∀ s, s ∈ list_servers reg → RuntimeServer.status s ≠ ONLINE)
  ∧ (∀ s, select_server reg = Return (Some s) →
       s ∈ list_servers reg
       ∧ RuntimeServer.status s = ONLINE
       ∧ (∃ r,
            truediv (ServerCapacity.current_sessions (RuntimeServer.capacity s))
                    (ServerCapacity.max_sessions (RuntimeServer.capacity s))
            = Return r
            ∧ ∀ s', s' ∈ list_servers reg → RuntimeServer.status s' = ONLINE →
                ∃ r',
                  truediv
                    (ServerCapacity.current_sessions (RuntimeServer.capacity s'))
                    (ServerCapacity.max_sessions (RuntimeServer.capacity s'))
                  = Return r'
                  ∧ Qle r r')
       ∧ ((∀ s', s' ∈ list_servers reg → RuntimeServer.status s' = ONLINE →
                 small_counts s') →
          ∀ s', s' ∈ list_servers reg → RuntimeServer.status s' = ONLINE →
                Qle (exact_ratio s) (exact_ratio s'))).
Proof.
  split.
  - rewrite select_server_None. unfold online_in. split.
    + intros H s Hin Hon. by apply (H s).
    + intros H s [Hin Hon]. by apply (H s).
  - intros s Hs. apply select_server_Some in Hs as ([Hin Hon] & r & Hr & Hmin).
    unfold load_ratio in *.
    split_and!; [done | done | |].
    + exists r. split; [done|]. intros s' Hin' Hon'. by apply Hmin.
    + intros Hsmall s' Hin' Hon'.
      destruct (Hmin s' (conj Hin' Hon')) as (r' & Hr' & Hle).
      destruct (Hsmall s Hin Hon) as [Hc Hm].
      destruct (Hsmall s' Hin' Hon') as [Hc' Hm'].
      unfold exact_ratio, Qle. simpl. rewrite !Z2Pos.id by lia.
      destruct (Z.le_gt_cases
                  (ServerCapacity.current_sessions (RuntimeServer.capacity s)
                   * ServerCapacity.max_sessions (RuntimeServer.capacity s'))
                  (ServerCapacity.current_sessions (RuntimeServer.capacity s')
                   * ServerCapacity.max_sessions (RuntimeServer.capacity s)))
        as [|Hgt]; [done|].
      exfalso. apply (Qlt_not_le r' r); [|done].
      eapply truediv_small_lt; [| | | | exact Hr' | exact Hr | lia]; done.
Qed.

Lemma fleet_ABC_small (s : RuntimeServer) :
  s ∈ list_servers fleet_ABC → RuntimeServer.status s = ONLINE →
  small_counts s.
Proof.
  intros Hin Hon.
  change (list_servers fleet_ABC)
    with [sample_server "A" ONLINE 10 5 0; sample_server "B" ONLINE 10 2 0;
          sample_server "C" OFFLINE 10 0 0] in Hin.
  repeat (apply elem_of_cons in Hin as [->|Hin]);
    [| | done | by apply elem_of_nil in Hin];
    unfold small_counts; simpl; lia.
Defined.

Lemma select_server_least_loaded_online_witness :
  select_server fleet_ABC = Return (Some (sample_server "B" ONLINE 10 2 0))
  ∧ ∀ s', s' ∈ list_servers fleet_ABC → RuntimeServer.status s' = ONLINE →
          Qle (exact_ratio (sample_server "B" ONLINE 10 2 0)) (exact_ratio s').
Proof.
  split; [reflexivity|].
  destruct (select_server_least_loaded_online fleet_ABC) as [_ H].
  destruct (H (sample_server "B" ONLINE 10 2 0)) as (_ & _ & _ & Hexact);
    [reflexivity|].
  exact (Hexact fleet_ABC_small).
Defined.

(** Equal keys keep the order of the list: of two equally loaded servers
    the one registered first is returned. *)
Example select_server_tie :
  select_server
    (run [λ reg, register_server reg (sample_server "B" ONLINE 10 2 0);
          λ reg, register_server reg (sample_server "A" ONLINE 5 1 0);
          λ reg, register_server reg (sample_server "C" ONLINE 10 3 0)])
  = Return (Some (sample_server "B" ONLINE 10 2 0)).
Proof. reflexivity. Qed.

(** A server with [max_sessions = 0] makes the sort key raise, and with it
    the whole selection. *)
Lemma select_server_zero_max_sessions (reg : ServerRegistry)
    (s : RuntimeServer) :
  s ∈ list_servers reg → RuntimeServer.status s = ONLINE →
  ServerCapacity.max_sessions (RuntimeServer.capacity s) = 0 →
  ∃ e, select_server reg = Raise e.
Proof.
  intros Hin Hon Hmax. apply (select_server_raises reg s ZeroDivisionError).
  - by split.
  - unfold load_ratio. rewrite Hmax. apply truediv_zero.
Qed.

(** C4 (defect in the code). A server with [max_sessions = 0] is claimed to
    be ineligible, with the selection staying well defined. The balancer has
    no such guard: with [Z] online at [max_sessions = 0] the division raises
    [ZeroDivisionError], no server is selected although [B] is online and
    eligible, and a request that needs the balancer is answered with 500. *)
Theorem select_server_zero_capacity_raises :
  sample_server "Z" ONLINE 0 0 0 ∈ list_servers fleet_ZB
  ∧ sample_server "B" ONLINE 10 2 0 ∈ list_servers fleet_ZB
  ∧ select_server fleet_ZB = Raise ZeroDivisionError
  ∧ proxy_request fleet_ZB 0 1 (Some "S1")
    = (fleet_ZB, [Call_select_server], Raise (HTTPException 500)).
Proof.
  split_and!; [| | reflexivity | reflexivity].
  - vm_compute. left.
  - vm_compute. right. left.
Qed.

(** ** The router *)

(** C1, as stated, fails: [S1] is bound to [A], [A] is offline and [B] is
    online, and the request carrying [S1] is still sent to [A]; the balancer
    is not consulted. *)
Lemma proxy_request_affinity_to_offline_server :
  get_session fleet_A_offline "S1" = Some (sample_session "S1" "A" 5)
  ∧ get_server fleet_A_offline "A" = Some (sample_server "A" OFFLINE 10 1 0)
  ∧ select_server fleet_A_offline
    = Return (Some (sample_server "B" ONLINE 10 0 0))
  ∧ proxy_request fleet_A_offline 9 10 (Some "S1")
    = (fleet_A_offline, [Call_upstream "host-A" 9001],
       Return (sample_server "A" OFFLINE 10 1 0)).
Proof. split_and!; reflexivity. Qed.

(** C1, amended. For every proxied request whose non-empty [session_id]
    header is bound in the registry to a server present in the server table,
    the router selects that server by affinity whatever its status, offline
    included: the request goes to it, the balancer is not consulted and the
    registry is unchanged. *)
Theorem proxy_request_affinity (reg : ServerRegistry) (now1 now2 : Z)
    (sid : string) (session : SessionInfo) (target : RuntimeServer) :
  sid ≠ EmptyString →
  get_session reg sid = Some session →
  get_server reg (SessionInfo.server_id session) = Some target →
  proxy_request reg now1 now2 (Some sid)
  = (reg,
     [Call_upstream (RuntimeServer.host target) (RuntimeServer.port target)],
     Return target).
Proof.
  intros Hne Hsess Htarget. unfold proxy_request, affinity_target.
  rewrite decide_False by done. rewrite Hsess. simpl. by rewrite Htarget.
Qed.

Lemma proxy_request_affinity_witness :
  proxy_request fleet_A_offline 9 10 (Some "S1")
  = (fleet_A_offline, [Call_upstream "host-A" 9001],
     Return (sample_server "A" OFFLINE 10 1 0)).
Proof.
  apply (proxy_request_affinity fleet_A_offline 9 10 "S1"
           (sample_session "S1" "A" 5) (sample_server "A" OFFLINE 10 1 0));
    [discriminate | reflexivity | reflexivity].
Defined.

(** The balancer is consulted exactly when step 1 finds no target. *)
Lemma proxy_request_balanced_iff (reg : ServerRegistry) (now1 now2 : Z)
    (session_id : option string) :
  Call_select_server ∈ (proxy_request reg now1 now2 session_id).1.2
  ↔ affinity_target reg session_id = None.
Proof.
  unfold proxy_request.
  destruct (affinity_target reg session_id) as [t|]; simpl.
  - split; [|done]. intros [=]%list_elem_of_singleton.
  - split; [done|]. intros _.
    destruct (select_server reg) as [[t|]|]; simpl; [|left..].
    destruct (SessionInfo.init now1 now2 session_id _); simpl; left.
Qed.

(** C10. For a request without a [session_id] header for which the balancer
    selects a server, the router passes the absent id as it is to
    [SessionInfo(session_id=None, server_id=...)]: no identifier is
    synthesized, the required string field rejects [None], no session is
    registered, the registry is unchanged and the request fails with 500. *)
Theorem proxy_request_without_session_id (reg : ServerRegistry)
    (now1 now2 : Z) (target : RuntimeServer) :
  select_server reg = Return (Some target) →
  proxy_request reg now1 now2 None
  = (reg,
     [Call_select_server;
      Call_SessionInfo None (RuntimeServer.server_id target)],
     Raise (HTTPException 500)).
Proof. intros Hsel. unfold proxy_request. simpl. by rewrite Hsel. Qed.

Lemma proxy_request_without_session_id_witness :
  proxy_request fleet_ABC 9 10 None
  = (fleet_ABC, [Call_select_server; Call_SessionInfo None "B"],
     Raise (HTTPException 500)).
Proof.
  apply (proxy_request_without_session_id fleet_ABC 9 10
           (sample_server "B" ONLINE 10 2 0)).
  reflexivity.
Defined.

(** ** Durations in seconds *)

Lemma float_lt_inject_Z_scale2 (T m k : Z) :
  0 < k → float_lt (inject_Z T) (scale2 m (- k)) = (T * 2 ^ k <? m).
Proof.
  intros Hk. unfold float_lt, scale2, Qle_bool.
  replace (0 <=? - k) with false by (symmetry; apply Z.leb_gt; lia).
  rewrite Z.opp_involutive. simpl.
  rewrite Z2Pos.id by (apply Z.pow_pos_nonneg; lia).
  rewrite Z.mul_1_r. rewrite Z.ltb_antisym. done.
Qed.

(** For a duration [d] within the range of [timedelta] and a timeout of [T]
    seconds below [2 ^ 34], [total_seconds()] does not raise and exceeds [T]
    exactly when [d] exceeds [T] seconds' worth of microseconds: up to that
    timeout, rounding to a double never carries a duration across a whole
    number of seconds. *)
Lemma total_seconds_gt (T d : Z) :
  0 ≤ T < 2 ^ 34 → - 2 ^ 67 < d < 2 ^ 67 →
  ∃ q, total_seconds d = Return q
       ∧ float_lt (inject_Z T) q = (T * 1000000 <? d).
Proof.
  intros HT Hd. unfold total_seconds, truediv.
  change (1000000 =? 0) with false. cbv iota.
  destruct (d =? 0) eqn:Hd0.
  - apply Z.eqb_eq in Hd0 as ->. eexists. split; [done|].
    unfold float_lt, Qle_bool. simpl.
    destruct (Z.leb_spec 0 (T * 1)), (Z.ltb_spec (T * 1000000) 0);
      simpl; (done || lia).
  - apply Z.eqb_neq in Hd0. cbv zeta.
    change (Z.abs 1000000) with 1000000. change (Z.log2 1000000) with 19.
    change (Z.sgn 1000000) with 1.
    set (n := Z.abs d).
    set (e0 := Z.log2 n - 19).
    set (below := if 0 <=? e0 then n <? 1000000 * 2 ^ e0 else _).
    set (e := if below then e0 - 1 else e0).
    assert (Hn : 0 < n < 2 ^ 67) by lia.
    assert (Hlog : 0 ≤ Z.log2 n < 67).
    { split; [apply Z.log2_nonneg|]. apply Z.log2_lt_pow2; lia. }
    assert (He : e0 - 1 ≤ e ≤ e0) by (unfold e; destruct below; lia).
    assert (Hshift : Z.max (e - 52) (-1074) = e - 52) by lia.
    rewrite Hshift.
    assert (Hneg : (0 <=? e - 52) = false) by (apply Z.leb_gt; lia).
    rewrite Hneg. simpl andb. cbv iota.
    eexists. split; [done|].
    set (k := - (e - 52)).
    replace (e - 52) with (- k) by lia.
    rewrite float_lt_inject_Z_scale2 by lia.
    assert (Hk : 5 ≤ k) by lia.
    assert (HP : 1 ≤ 2 ^ k) by (apply (Z.pow_le_mono_r 2 0 k); lia).
    destruct (Z.ltb_spec (T * 1000000) d) as [Hgt|Hle].
    + assert (Hsgn : Z.sgn d = 1) by (apply Z.sgn_pos; lia).
      rewrite Hsgn. assert (Hnd : n = d) by lia.
      apply Z.ltb_lt.
      enough (T * 2 ^ k + 1 ≤ round_half_even (n * 2 ^ k) 1000000) by lia.
      destruct (decide ((T + 1) * 1000000 ≤ d)) as [Hbig|Hsmall].
      * apply round_half_even_ge; [lia|]. nia.
      * assert (Hn54 : n < 2 ^ 34 * 1000000) by lia.
        assert (Hl54 : Z.log2 n < 54) by (apply Z.log2_lt_pow2; lia).
        assert (He33 : e ≤ 33).
        { destruct (decide (e0 = 34)) as [H34|]; [|lia].
          unfold e. replace below with true; [lia|].
          symmetry. unfold below. rewrite H34. simpl (0 <=? 34). cbv iota.
          apply Z.ltb_lt. lia. }
        assert (2 ^ 19 ≤ 2 ^ k) by (apply Z.pow_le_mono_r; lia).
        apply round_half_even_above_half; [lia|].
        set (P := 2 ^ k) in *. change (2 ^ 19) with 524288 in *. nia.
    + apply Z.ltb_ge.
      pose proof (round_half_even_ge (n * 2 ^ k) 1000000 0).
      destruct (Z.sgn_spec d) as [[? ->]|[[? ->]|[? ->]]]; [|lia|nia].
      replace n with d by lia.
      pose proof (round_half_even_le (d * 2 ^ k) 1000000 (T * 2 ^ k)). nia.
Qed.

(** A naive [last_updated] within the range of Python's datetimes is
    compared with the timeout as the exact microsecond counts compare. *)
Lemma time_since_last_heartbeat_naive (heartbeat_timeout now t : Z)
    (s : RuntimeServer) :
  0 ≤ heartbeat_timeout < 2 ^ 34 → representable now → representable t →
  ServerCapacity.last_updated (RuntimeServer.capacity s) = Naive t →
  ∃ time_since,
    time_since_last_heartbeat now s = Return time_since
    ∧ float_lt (inject_Z heartbeat_timeout) time_since
      = (heartbeat_timeout * 1000000 <? now - t).
Proof.
  intros HT Hnow Ht Hlast. unfold time_since_last_heartbeat. rewrite Hlast.
  simpl. apply total_seconds_gt; [done|].
  unfold representable, datetime_span in *. lia.
Qed.

(** An aware [last_updated] cannot be subtracted from the clock of the
    sweep. *)
Lemma time_since_last_heartbeat_aware (now t utcoffset : Z)
    (s : RuntimeServer) :
  ServerCapacity.last_updated (RuntimeServer.capacity s) = Aware t utcoffset →
  time_since_last_heartbeat now s = Raise TypeError.
Proof. intros Hlast. unfold time_since_last_heartbeat. by rewrite Hlast. Qed.

Lemma visited_swept (heartbeat_timeout now : Z) (s : RuntimeServer) :
  0 ≤ heartbeat_timeout < 2 ^ 34 → representable now →
  (RuntimeServer.status s ≠ OFFLINE → naive_heartbeat s) →
  visited heartbeat_timeout now s = swept heartbeat_timeout now s.
Proof.
  intros HT Hnow Hs. unfold visited, swept.
  destruct (decide (RuntimeServer.status s = OFFLINE)) as [|Hon]; [done|].
  destruct (Hs Hon) as (t & Hlast & Ht).
  destruct (time_since_last_heartbeat_naive heartbeat_timeout now t s)
    as (q & -> & ->); [done..|].
  unfold silent_beyond. by rewrite Hlast.
Qed.

(** ** The heartbeat sweep *)

Lemma wf_servers_get (reg : ServerRegistry) (k : string) (s : RuntimeServer) :
  wf_servers reg → get_server reg k = Some s → RuntimeServer.server_id s = k.
Proof.
  intros [_ Hid] Hget. apply PyDictFacts.get_Some_elem_of in Hget.
  rewrite Forall_forall in Hid. exact (Hid (k, s) Hget).
Qed.

Lemma wf_servers_listed (reg : ServerRegistry) (s : RuntimeServer) :
  wf_servers reg → s ∈ list_servers reg →
  get_server reg (RuntimeServer.server_id s) = Some s.
Proof.
  intros [Hnd Hid] [k Hin]%PyDictFacts.elem_of_values.
  rewrite Forall_forall in Hid. pose proof (Hid (k, s) Hin) as Hk.
  simpl in Hk. rewrite Hk. by apply PyDictFacts.elem_of_get.
Qed.

Lemma get_server_listed (reg : ServerRegistry) (k : string)
    (s : RuntimeServer) :
  get_server reg k = Some s → s ∈ list_servers reg.
Proof.
  intros Hget. apply PyDictFacts.get_Some_elem_of in Hget.
  apply PyDictFacts.elem_of_values. by exists k.
Qed.


Section sweep.
Context (heartbeat_timeout now : Z).

Lemma visited_idemp (s : RuntimeServer) :
  visited heartbeat_timeout now (visited heartbeat_timeout now s)
  = visited heartbeat_timeout now s.
Proof.
  unfold visited.
  destruct (decide (RuntimeServer.status s = OFFLINE)) as [H|H].
  - by rewrite decide_True.
  - destruct (time_since_last_heartbeat now s) as [q|e] eqn:Hq.
    + destruct (float_lt (inject_Z heartbeat_timeout) q) eqn:He.
      * by rewrite decide_True.
      * by rewrite decide_False, Hq, He.
    + by rewrite decide_False, Hq.
Qed.

Lemma visited_server_id (s : RuntimeServer) :
  RuntimeServer.server_id (visited heartbeat_timeout now s)
  = RuntimeServer.server_id s.
Proof. unfold visited. by repeat case_match. Qed.

(** A visit that raises leaves the registry as it is. *)
Lemma visit_server_raises (reg : ServerRegistry) (ref : string) (e : exn) :
  (visit_server heartbeat_timeout now reg ref).2 = Raise e →
  (visit_server heartbeat_timeout now reg ref).1 = reg.
Proof.
  unfold visit_server, check_heartbeat. by repeat case_match.
Qed.

Lemma visit_server_lookup (reg : ServerRegistry) (ref k : string) :
  ids_agree reg →
  get_server (visit_server heartbeat_timeout now reg ref).1 k
  = if decide (k = ref) then visited heartbeat_timeout now <$> get_server reg k
    else get_server reg k.
Proof.
  intros Hid. unfold visit_server, check_heartbeat.
  destruct (PyDict.get ref (_servers reg)) as [server|] eqn:Href.
  - pose proof (Hid ref server Href) as Hsid.
    destruct (decide (k = ref)) as [->|Hne].
    + unfold get_server at 2. rewrite Href. simpl. unfold visited.
      destruct (decide (RuntimeServer.status server = OFFLINE));
        [by unfold get_server|].
      destruct (time_since_last_heartbeat now server) as [q|e];
        [|by unfold get_server].
      destruct (float_lt (inject_Z heartbeat_timeout) q);
        [|by unfold get_server].
      rewrite Hsid. unfold update_server_status, get_server.
      rewrite Href. simpl. by rewrite PyDictFacts.get_alter_eq, Href.
    + destruct (decide (RuntimeServer.status server = OFFLINE)); [done|].
      destruct (time_since_last_heartbeat now server) as [q|e]; [|done].
      destruct (float_lt (inject_Z heartbeat_timeout) q); [|done].
      rewrite Hsid. unfold update_server_status, get_server.
      rewrite Href. simpl. by rewrite PyDictFacts.get_alter_ne.
  - destruct (decide (k = ref)) as [->|]; [|done].
    unfold get_server. simpl. by rewrite Href.
Qed.

Lemma visit_server_ids_agree (reg : ServerRegistry) (ref : string) :
  ids_agree reg → ids_agree (visit_server heartbeat_timeout now reg ref).1.
Proof.
  intros Hid k s. rewrite visit_server_lookup by done.
  destruct (decide (k = ref)) as [->|]; [|apply Hid].
  destruct (get_server reg ref) as [s0|] eqn:Hs0; simpl; [|done].
  intros [= <-]. rewrite visited_server_id. by apply Hid.
Qed.

Lemma visit_server_frame (reg : ServerRegistry) (ref : string) :
  _sessions (visit_server heartbeat_timeout now reg ref).1 = _sessions reg
  ∧ _server_sessions (visit_server heartbeat_timeout now reg ref).1
    = _server_sessions reg
  ∧ PyDict.keys (_servers (visit_server heartbeat_timeout now reg ref).1)
    = PyDict.keys (_servers reg).
Proof.
  unfold visit_server, check_heartbeat, update_server_status.
  repeat case_match; simpl; try done.
  by rewrite PyDictFacts.keys_alter.
Qed.

(** One step of the loop, by the outcome of the visit. *)
Lemma for_servers_cons (ref : string) (refs : list string)
    (reg : ServerRegistry) :
  for_servers heartbeat_timeout now (ref :: refs) reg
  = match (visit_server heartbeat_timeout now reg ref).2 with
    | Return _ =>
        for_servers heartbeat_timeout now refs
          (visit_server heartbeat_timeout now reg ref).1
    | Raise e => (reg, Raise e)
    end.
Proof.
  cbn [for_servers].
  pose proof (visit_server_raises reg ref) as Hraise.
  destruct (visit_server heartbeat_timeout now reg ref) as [reg' [[]|e]];
    simpl in *; [done|]. by rewrite (Hraise e).
Qed.

Lemma for_servers_frame (refs : list string) (reg : ServerRegistry) :
  _sessions (for_servers heartbeat_timeout now refs reg).1 = _sessions reg
  ∧ _server_sessions (for_servers heartbeat_timeout now refs reg).1
    = _server_sessions reg
  ∧ PyDict.keys (_servers (for_servers heartbeat_timeout now refs reg).1)
    = PyDict.keys (_servers reg).
Proof.
  revert reg. induction refs as [|ref refs IH]; intros reg; [done|].
  rewrite for_servers_cons.
  destruct (visit_server heartbeat_timeout now reg ref).2; [|done].
  destruct (IH (visit_server heartbeat_timeout now reg ref).1)
    as (-> & -> & ->).
  apply visit_server_frame.
Qed.

(** A sweep that runs to its end has visited every server of its list. *)
Lemma for_servers_lookup (refs : list string) (reg : ServerRegistry)
    (k : string) :
  ids_agree reg →
  (for_servers heartbeat_timeout now refs reg).2 = Return () →
  get_server (for_servers heartbeat_timeout now refs reg).1 k
  = if decide (k ∈ refs) then visited heartbeat_timeout now <$> get_server reg k
    else get_server reg k.
Proof.
  revert reg. induction refs as [|ref refs IH]; intros reg Hid.
  - intros _. simpl.
    destruct (decide (k ∈ [])) as [Hin|]; [by apply elem_of_nil in Hin | done].
  - rewrite for_servers_cons.
    destruct (visit_server heartbeat_timeout now reg ref).2; [|done].
    intros Hend. rewrite IH by (done || by apply visit_server_ids_agree).
    rewrite visit_server_lookup by done.
    destruct (decide (k = ref)) as [->|Hne].
    + rewrite (decide_True (P := ref ∈ ref :: refs)) by left.
      destruct (decide (ref ∈ refs)); [|done].
      destruct (get_server reg ref); simpl; [|done]. by rewrite visited_idemp.
    + destruct (decide (k ∈ refs)) as [Hin|Hnin].
      * rewrite decide_True; [done | by right].
      * rewrite decide_False; [done|]. intros [?|?]%elem_of_cons; congruence.
Qed.

(** A sweep, finished or not, leaves a server alone that a visit would
    leave alone. *)
Lemma for_servers_lookup_stable (refs : list string) (reg : ServerRegistry)
    (k : string) :
  ids_agree reg →
  (∀ s, get_server reg k = Some s → visited heartbeat_timeout now s = s) →
  get_server (for_servers heartbeat_timeout now refs reg).1 k
  = get_server reg k.
Proof.
  revert reg. induction refs as [|ref refs IH]; intros reg Hid Hstable; [done|].
  rewrite for_servers_cons.
  assert (Hstep :
    get_server (visit_server heartbeat_timeout now reg ref).1 k
    = get_server reg k).
  { rewrite visit_server_lookup by done.
    destruct (decide (k = ref)) as [->|]; [|done].
    destruct (get_server reg ref) as [s|] eqn:Hs; simpl; [|done].
    by rewrite Hstable. }
  destruct (visit_server heartbeat_timeout now reg ref).2; [|done].
  rewrite IH; [done | by apply visit_server_ids_agree |].
  rewrite Hstep. exact Hstable.
Qed.

(** The sweep runs to its end when no server that is not offline carries a
    timestamp that the subtraction rejects. *)
Lemma for_servers_completes (refs : list string) (reg : ServerRegistry) :
  ids_agree reg →
  (∀ k s, get_server reg k = Some s → RuntimeServer.status s ≠ OFFLINE →
          ∃ q, time_since_last_heartbeat now s = Return q) →
  (for_servers heartbeat_timeout now refs reg).2 = Return ().
Proof.
  revert reg. induction refs as [|ref refs IH]; intros reg Hid Hok; [done|].
  rewrite for_servers_cons.
  assert (Hvisit : (visit_server heartbeat_timeout now reg ref).2 = Return ()).
  { unfold visit_server, check_heartbeat.
    destruct (PyDict.get ref (_servers reg)) as [server|] eqn:Href; [|done].
    destruct (decide (RuntimeServer.status server = OFFLINE)); [done|].
    destruct (Hok ref server Href) as [q ->]; [done|]. by case_match. }
  rewrite Hvisit. apply IH; [by apply visit_server_ids_agree|].
  intros k s. rewrite visit_server_lookup by done.
  destruct (decide (k = ref)) as [->|]; [|apply Hok].
  destruct (get_server reg ref) as [s0|] eqn:Hs0; simpl; [|done].
  intros [= <-] Hon. unfold visited in *.
  destruct (decide (RuntimeServer.status s0 = OFFLINE)); [done|].
  destruct (Hok ref s0 Hs0) as [q Hq]; [done|]. rewrite Hq in *.
  destruct (float_lt (inject_Z heartbeat_timeout) q); [done|]. by exists q.
Qed.

End sweep.

Lemma wf_servers_ids_agree (reg : ServerRegistry) :
  wf_servers reg → ids_agree reg.
Proof. intros Hwf k s. by apply wf_servers_get. Qed.

(** Over a sweepable table the sweep runs to its end. *)
Lemma check_heartbeats_completes (heartbeat_timeout now : Z)
    (reg : ServerRegistry) :
  wf_servers reg → 0 ≤ heartbeat_timeout < 2 ^ 34 → representable now →
  sweepable reg →
  (_check_heartbeats heartbeat_timeout now reg).2 = Return ().
Proof.
  intros Hwf HT Hnow Hsw. unfold _check_heartbeats. cbv zeta.
  apply for_servers_completes; [by apply wf_servers_ids_agree|].
  intros k s Hget Hon.
  destruct (Hsw s (get_server_listed reg k s Hget) Hon) as (t & Hlast & Ht).
  destruct (time_since_last_heartbeat_naive heartbeat_timeout now t s)
    as (q & Hq & _); [done..|].
  by exists q.
Qed.

(** Over a sweepable table the sweep leaves every server as [swept] makes
    it. *)
Lemma check_heartbeats_lookup (heartbeat_timeout now : Z)
    (reg : ServerRegistry) (k : string) :
  wf_servers reg → 0 ≤ heartbeat_timeout < 2 ^ 34 → representable now →
  sweepable reg →
  get_server (_check_heartbeats heartbeat_timeout now reg).1 k
  = swept heartbeat_timeout now <$> get_server reg k.
Proof.
  intros Hwf HT Hnow Hsw.
  pose proof (check_heartbeats_completes heartbeat_timeout now reg
                Hwf HT Hnow Hsw) as Hend.
  unfold _check_heartbeats in *. cbv zeta in *.
  rewrite for_servers_lookup by (done || by apply wf_servers_ids_agree).
  destruct (get_server reg k) as [s|] eqn:Hget; simpl.
  - rewrite decide_True.
    + f_equal. apply visited_swept; [done..|].
      apply Hsw. by eapply get_server_listed.
    + apply PyDictFacts.get_Some_elem_of in Hget.
      apply list_elem_of_fmap. by exists (k, s).
  - by case_decide.
Qed.



Lemma fleet_heartbeats_wf : wf_servers fleet_heartbeats.
Proof.
  split.
  - apply (bool_decide_unpack _). reflexivity.
  - vm_compute. repeat constructor.
Defined.

Lemma fleet_heartbeats_sweepable : sweepable fleet_heartbeats.
Proof.
  intros s Hin Hon.
  change (list_servers fleet_heartbeats)
    with [sample_server "A" ONLINE 10 1 0;
          sample_server "B" ONLINE 10 0 50000000;
          sample_server "C" OFFLINE 10 0 0] in Hin.
  repeat (apply elem_of_cons in Hin as [->|Hin]);
    [| | done | by apply elem_of_nil in Hin];
    eexists; (split; [reflexivity | unfold representable, datetime_span; lia]).
Defined.


Example check_heartbeats_sample :
  list_servers (_check_heartbeats 60 100000000 fleet_heartbeats).1
  = [sample_server "A" OFFLINE 10 1 0;
     sample_server "B" ONLINE 10 0 50000000;
     sample_server "C" OFFLINE 10 0 0].
Proof. reflexivity. Qed.

(** ** The heartbeat endpoint *)

(** A heartbeat for an unknown server registers the body. *)
Lemma handle_heartbeat_unknown (reg : ServerRegistry) (server_id : string)
    (b : RuntimeServer) :
  get_server reg (RuntimeServer.server_id b) = None →
  handle_heartbeat reg server_id b = ((register_server reg b).1, Return ()).
Proof. unfold handle_heartbeat. by intros ->. Qed.

(** A heartbeat posted under the id of its body overwrites the capacity of
    the stored server and brings it back online when it was offline. *)
Lemma handle_heartbeat_same_id (reg : ServerRegistry) (b s : RuntimeServer) :
  get_server reg (RuntimeServer.server_id b) = Some s →
  (handle_heartbeat reg (RuntimeServer.server_id b) b).2 = Return ()
  ∧ get_server (handle_heartbeat reg (RuntimeServer.server_id b) b).1
      (RuntimeServer.server_id b)
    = Some (RuntimeServer.mk (RuntimeServer.server_id s) (RuntimeServer.host s)
              (RuntimeServer.port s)
              (if decide (RuntimeServer.status s = OFFLINE) then ONLINE
               else RuntimeServer.status s)
              (RuntimeServer.capacity b) (RuntimeServer.metadata s)).
Proof.
  intros Hs. unfold handle_heartbeat. rewrite Hs.
  unfold get_server in Hs.
  destruct (decide (RuntimeServer.status s = OFFLINE)); simpl.
  - split; [done|]. unfold update_server_status, get_server. simpl.
    rewrite PyDictFacts.get_alter_eq, Hs. simpl.
    by rewrite PyDictFacts.get_alter_eq, PyDictFacts.get_alter_eq, Hs.
  - split; [done|]. unfold get_server. simpl.
    rewrite PyDictFacts.get_alter_eq, Hs. by destruct s.
Qed.

(** C9 (defect in the code). A heartbeat for a known offline server is
    claimed to overwrite its capacity and bring it back online. The handler
    finds the stored server under the id of the body but sends the status
    update to the id of the path. Posted to [/servers/B/heartbeat] with a
    body for [A], the heartbeat overwrites the capacity of [A] and leaves
    [A] offline, while [B], for which nothing was received, goes online. *)
Theorem handle_heartbeat_path_and_body_disagree :
  get_server fleet_AB_offline "A" = Some (sample_server "A" OFFLINE 10 1 0)
  ∧ get_server fleet_AB_offline "B" = Some (sample_server "B" OFFLINE 10 0 0)
  ∧ (handle_heartbeat fleet_AB_offline "B" (sample_server "A" ONLINE 10 3 70)).2
    = Return ()
  ∧ get_server
      (handle_heartbeat fleet_AB_offline "B" (sample_server "A" ONLINE 10 3 70)).1
      "A"
    = Some (sample_server "A" OFFLINE 10 3 70)
  ∧ get_server
      (handle_heartbeat fleet_AB_offline "B" (sample_server "A" ONLINE 10 3 70)).1
      "B"
    = Some (sample_server "B" ONLINE 10 0 0).
Proof. split_and!; reflexivity. Qed.

(** Posted under another id, a heartbeat never changes the status of the
    server its body names. *)
Lemma handle_heartbeat_other_id (reg : ServerRegistry) (server_id : string)
    (b s : RuntimeServer) :
  get_server reg (RuntimeServer.server_id b) = Some s →
  server_id ≠ RuntimeServer.server_id b →
  get_server (handle_heartbeat reg server_id b).1 (RuntimeServer.server_id b)
  = Some (RuntimeServer.set_capacity (RuntimeServer.capacity b) s).
Proof.
  intros Hs Hne. unfold handle_heartbeat. rewrite Hs.
  unfold get_server in Hs.
  destruct (decide (RuntimeServer.status s = OFFLINE)); simpl.
  - unfold update_server_status, get_server. simpl.
    destruct (PyDict.get server_id _); simpl.
    + by rewrite PyDictFacts.get_alter_ne, PyDictFacts.get_alter_eq, Hs.
    + by rewrite PyDictFacts.get_alter_eq, Hs.
  - unfold get_server. simpl. by rewrite PyDictFacts.get_alter_eq, Hs.
Qed.

(** ** Representation invariant of the registry *)

Section dict_invariants.
Context {V : Type}.
Implicit Types (d : list (string * V)) (k : string) (v : V).

Lemma keys_set_old k v d :
  k ∈ PyDict.keys d → PyDict.keys (PyDict.set k v d) = PyDict.keys d.
Proof.
  unfold PyDict.keys. induction d as [|[k' v'] d IH]; csimpl.
  - by intros ?%elem_of_nil.
  - destruct (decide (k' = k)) as [->|Hne]; csimpl; [done|].
    intros [?|Hin]%elem_of_cons; [congruence|]. by rewrite IH.
Qed.

Lemma keys_set_new k v d :
  k ∉ PyDict.keys d → PyDict.keys (PyDict.set k v d) = PyDict.keys d ++ [k].
Proof.
  unfold PyDict.keys. induction d as [|[k' v'] d IH]; csimpl; [done|].
  intros [Hne Hnin]%not_elem_of_cons.
  rewrite decide_False by done. csimpl. by rewrite IH.
Qed.

Lemma NoDup_keys_set k v d :
  NoDup (PyDict.keys d) → NoDup (PyDict.keys (PyDict.set k v d)).
Proof.
  intros Hnd. destruct (decide (k ∈ PyDict.keys d)) as [Hin|Hnin].
  - by rewrite keys_set_old.
  - rewrite keys_set_new by done.
    apply NoDup_app. split_and!; [done | | apply NoDup_singleton].
    intros x Hx ->%list_elem_of_singleton. done.
Qed.

Lemma Forall_set (P : string * V → Prop) k v d :
  P (k, v) → Forall P d → Forall P (PyDict.set k v d).
Proof.
  intros Hkv. induction 1 as [|[k' v'] d Hx Hd IH]; simpl.
  - by repeat constructor.
  - destruct (decide (k' = k)); by constructor.
Qed.

Lemma NoDup_keys_del k d :
  NoDup (PyDict.keys d) → NoDup (PyDict.keys (PyDict.del k d)).
Proof.
  unfold PyDict.keys, PyDict.del. induction d as [|[k' v'] d IH]; [done|].
  rewrite fmap_cons, filter_cons. simpl. intros [Hk Hd]%NoDup_cons.
  destruct (decide (k' ≠ k)); [|by apply IH].
  rewrite fmap_cons. simpl. apply NoDup_cons. split; [|by apply IH].
  intros [[k0 v0] [-> [_ Hin]%list_elem_of_filter]]%list_elem_of_fmap.
  apply Hk, list_elem_of_fmap. by exists (k0, v0).
Qed.

Lemma Forall_del (P : string * V → Prop) k d :
  Forall P d → Forall P (PyDict.del k d).
Proof.
  rewrite !Forall_forall. intros Hd x [_ Hin]%list_elem_of_filter. by apply Hd.
Qed.

Lemma Forall_alter (P : string * V → Prop) (f : V → V) k d :
  (∀ v, P (k, v) → P (k, f v)) → Forall P d → Forall P (PyDict.alter f k d).
Proof.
  intros Hf Hd. unfold PyDict.alter. apply Forall_fmap.
  eapply Forall_impl; [exact Hd|]. intros [k' v'] Hkv. simpl.
  destruct (decide (k' = k)) as [->|]; [by apply Hf | done].
Qed.

End dict_invariants.

Lemma empty_registry_wf : wf_registry empty_registry.
Proof.
  split.
  - split; [apply NoDup_nil_2 | apply Forall_nil_2].
  - intros k. unfold get_server. simpl. rewrite lookup_empty. done.
  - intros sid sess. unfold get_session. simpl. by rewrite lookup_empty.
Qed.

Lemma register_server_wf (reg : ServerRegistry) (s : RuntimeServer) :
  wf_registry reg → wf_registry (register_server reg s).1.
Proof.
  intros [[Hnd Hid] Hidx Hsess]. split; simpl.
  - split; simpl; [by apply NoDup_keys_set | by apply Forall_set].
  - intros k. unfold get_server. simpl.
    destruct (decide (RuntimeServer.server_id s = k)) as [<-|Hne].
    + rewrite PyDictFacts.get_set_eq, lookup_insert_eq. by split.
    + rewrite PyDictFacts.get_set_ne, lookup_insert_ne by done. apply Hidx.
  - exact Hsess.
Qed.

Lemma unregister_server_wf (reg : ServerRegistry) (K : string) :
  wf_registry reg → wf_registry (unregister_server reg K).1.
Proof.
  intros [[Hnd Hid] Hidx Hsess]. unfold unregister_server.
  destruct (PyDict.get K (_servers reg)) eqn:HK; simpl; [|by split].
  split; simpl.
  - split; simpl; [by apply NoDup_keys_del | by apply Forall_del].
  - intros k. unfold get_server. simpl.
    destruct (decide (K = k)) as [<-|Hne].
    + rewrite PyDictFacts.get_del_eq, lookup_delete_eq. by split; intros [? ?].
    + rewrite PyDictFacts.get_del_ne, lookup_delete_ne by done. apply Hidx.
  - intros sid sess. unfold get_session. simpl. rewrite drop_sessions_lookup.
    destruct (decide (sid ∈ _)); [done | apply Hsess].
Qed.

(** Mutating a stored server without touching its id keeps the invariant. *)
Lemma alter_server_wf (reg : ServerRegistry) (f : RuntimeServer → RuntimeServer)
    (k : string) :
  (∀ s, RuntimeServer.server_id (f s) = RuntimeServer.server_id s) →
  wf_registry reg →
  wf_registry
    (mkRegistry (PyDict.alter f k (_servers reg)) (_sessions reg)
       (_server_sessions reg)).
Proof.
  intros Hf [[Hnd Hid] Hidx Hsess]. split; simpl.
  - split; simpl.
    + by rewrite PyDictFacts.keys_alter.
    + apply Forall_alter; [|done]. intros s. simpl. by rewrite Hf.
  - intros k'. rewrite <- Hidx. unfold get_server. simpl.
    destruct (decide (k = k')) as [<-|Hne].
    + rewrite PyDictFacts.get_alter_eq. apply fmap_is_Some.
    + by rewrite PyDictFacts.get_alter_ne.
  - exact Hsess.
Qed.

Lemma update_server_status_wf (reg : ServerRegistry) (id : string)
    (status : ServerStatus) :
  wf_registry reg → wf_registry (update_server_status reg id status).1.
Proof.
  intros Hwf. unfold update_server_status.
  destruct (PyDict.get id (_servers reg)); simpl; [|done].
  by apply alter_server_wf.
Qed.

Lemma insert_known_is_Some {V : Type} (m : gmap string V) (k k' : string)
    (v : V) :
  is_Some (m !! k) → is_Some (<[k := v]> m !! k') ↔ is_Some (m !! k').
Proof.
  intros Hk. destruct (decide (k = k')) as [<-|Hne].
  - rewrite lookup_insert_eq. by split.
  - by rewrite lookup_insert_ne.
Qed.

Lemma register_session_wf (reg : ServerRegistry) (sess : SessionInfo) :
  wf_registry reg → wf_registry (register_session reg sess).1.
Proof.
  intros [Htbl Hidx Hsess].
  assert (Hkeys : ∀ sid sess',
    <[SessionInfo.session_id sess := sess]> (_sessions reg) !! sid = Some sess' →
    SessionInfo.session_id sess' = sid).
  { intros sid sess' [[<- <-]|[_ H]]%lookup_insert_Some; [done | by apply Hsess]. }
  unfold register_session.
  destruct (_server_sessions reg !! SessionInfo.server_id sess) eqn:Hix; simpl.
  - split; simpl; [done | | done].
    intros k. etrans; [apply (Hidx k)|]. symmetry.
    apply insert_known_is_Some. by rewrite Hix.
  - by split.
Qed.

Lemma unregister_session_wf (reg : ServerRegistry) (sid : string) :
  wf_registry reg → wf_registry (unregister_session reg sid).1.
Proof.
  intros [Htbl Hidx Hsess]. unfold unregister_session.
  destruct (_sessions reg !! sid) as [sess|]; [|by split].
  destruct (_server_sessions reg !! SessionInfo.server_id sess) eqn:Hix;
    [|by split].
  destruct (list_remove sid _); simpl; [|by split].
  split; simpl; [done | |].
  - intros k. etrans; [apply (Hidx k)|]. symmetry.
    apply insert_known_is_Some. by rewrite Hix.
  - intros sid' sess'. unfold get_session. simpl.
    intros [_ H]%lookup_delete_Some. by apply Hsess.
Qed.

Lemma check_heartbeats_wf (heartbeat_timeout : Z) (now : Z)
    (reg : ServerRegistry) :
  wf_registry reg →
  wf_registry (_check_heartbeats heartbeat_timeout now reg).1.
Proof.
  unfold _check_heartbeats. cbv zeta.
  generalize (PyDict.keys (_servers reg)) as refs. intros refs. revert reg.
  induction refs as [|ref refs IH]; intros reg Hwf; [done|].
  rewrite for_servers_cons.
  destruct (visit_server heartbeat_timeout now reg ref).2; [|done].
  apply IH. unfold visit_server, check_heartbeat.
  repeat case_match; try done. by apply update_server_status_wf.
Qed.

Lemma handle_heartbeat_wf (reg : ServerRegistry) (server_id : string)
    (b : RuntimeServer) :
  wf_registry reg → wf_registry (handle_heartbeat reg server_id b).1.
Proof.
  intros Hwf. unfold handle_heartbeat.
  destruct (get_server reg (RuntimeServer.server_id b)).
  - pose proof (alter_server_wf reg
      (RuntimeServer.set_capacity (RuntimeServer.capacity b))
      (RuntimeServer.server_id b) (λ _, eq_refl) Hwf) as Hwf1.
    case_decide; simpl; [|done]. by apply update_server_status_wf.
  - simpl. by apply register_server_wf.
Qed.

Lemma proxy_request_wf (reg : ServerRegistry) (now1 now2 : Z)
    (session_id : option string) :
  wf_registry reg → wf_registry (proxy_request reg now1 now2 session_id).1.1.
Proof.
  intros Hwf. unfold proxy_request.
  repeat case_match; simpl; try done. by apply register_session_wf.
Qed.

(** X1. Every state the proxy can reach from the empty registry, through
    registry calls, heartbeat sweeps, heartbeats and routed requests,
    satisfies the representation invariant: server ids are unique and every
    server is stored under its own id, the session indexes have exactly the
    keys of the server table, and every session is stored under its own
    id. *)
Theorem reachable_wf (reg : ServerRegistry) : reachable reg → wf_registry reg.
Proof.
  induction 1;
    eauto using empty_registry_wf, register_server_wf, unregister_server_wf,
      update_server_status_wf, register_session_wf, unregister_session_wf,
      check_heartbeats_wf, handle_heartbeat_wf, proxy_request_wf.
Qed.

(** In every state of the proxy, registering a session for a server that is
    not in the server table reports failure and still stores the session. *)
Lemma register_session_unknown_server (reg : ServerRegistry)
    (sess : SessionInfo) :
  wf_registry reg →
  get_server reg (SessionInfo.server_id sess) = None →
  (register_session reg sess).2 = false
  ∧ get_session (register_session reg sess).1 (SessionInfo.session_id sess)
    = Some sess
  ∧ _servers (register_session reg sess).1 = _servers reg
  ∧ _server_sessions (register_session reg sess).1 = _server_sessions reg.
Proof.
  intros Hwf Hnone.
  assert (Hix : _server_sessions reg !! SessionInfo.server_id sess = None).
  { apply eq_None_not_Some. rewrite <- (wf_index_keys reg Hwf), Hnone.
    by intros [? ?]. }
  rewrite (register_session_unknown_index _ _ Hix). unfold get_session. simpl.
  by rewrite lookup_insert_eq.
Qed.

(** * Further properties *)

(** ** More on dictionaries *)

Section dict_round_trips.
Context {V : Type}.
Implicit Types (d : list (string * V)) (k : string) (v : V).

Lemma set_set k v v' d : PyDict.set k v (PyDict.set k v' d) = PyDict.set k v d.
Proof.
  induction d as [|[k' w] d IH]; simpl.
  - by rewrite decide_True.
  - destruct (decide (k' = k)) as [->|Hne]; simpl.
    + by rewrite decide_True.
    + rewrite decide_False by done. by rewrite IH.
Qed.

Lemma del_set_fresh k v d :
  PyDict.get k d = None → PyDict.del k (PyDict.set k v d) = d.
Proof.
  unfold PyDict.del. induction d as [|[k' w] d IH]; simpl.
  - intros _. rewrite filter_cons. simpl.
    by rewrite decide_False by (by intros ?).
  - destruct (decide (k' = k)) as [->|Hne]; [done|]. intros Hd.
    rewrite filter_cons. simpl. rewrite decide_True by done. by rewrite IH.
Qed.


(** Two dictionaries with the same keys in the same order and the same
    value under every key are equal. *)
Lemma dict_ext d1 d2 :
  PyDict.keys d1 = PyDict.keys d2 → NoDup (PyDict.keys d1) →
  (∀ k, PyDict.get k d1 = PyDict.get k d2) → d1 = d2.
Proof.
  unfold PyDict.keys. revert d2.
  induction d1 as [|[k1 v1] d1 IH]; intros [|[k2 v2] d2]; try done.
  rewrite !fmap_cons. simpl. intros [= <- Hks] [Hk Hnd]%NoDup_cons Hget.
  pose proof (Hget k1) as H1. simpl in H1. rewrite !decide_True in H1 by done.
  injection H1 as <-. f_equal. apply IH; [done | done |].
  intros k. specialize (Hget k). simpl in Hget.
  destruct (decide (k1 = k)) as [<-|]; [|done].
  transitivity (@None V); [|symmetry].
  - by apply PyDictFacts.get_None_not_elem_of.
  - apply PyDictFacts.get_None_not_elem_of. unfold PyDict.keys.
    by rewrite <- Hks.
Qed.

Lemma get_map_values (f : V → V) k d :
  PyDict.get k ((λ kv, (kv.1, f kv.2)) <$> d) = f <$> PyDict.get k d.
Proof.
  induction d as [|[k' v'] d IH]; [done|]. rewrite fmap_cons. simpl.
  by destruct (decide (k' = k)).
Qed.

Lemma keys_map_values (f : V → V) d :
  PyDict.keys ((λ kv, (kv.1, f kv.2)) <$> d) = PyDict.keys d.
Proof.
  unfold PyDict.keys. induction d as [|[k' v'] d IH]; [done|].
  rewrite !fmap_cons. simpl. by f_equal.
Qed.

End dict_round_trips.

Lemma registry_eq (reg : ServerRegistry) :
  mkRegistry (_servers reg) (_sessions reg) (_server_sessions reg) = reg.
Proof. by destruct reg. Qed.

(** ** The sample fleets are states of the proxy *)

Lemma fleet_ABC_wf : wf_registry fleet_ABC.
Proof.
  apply (register_server_wf _ (sample_server "C" OFFLINE 10 0 0)).
  apply (register_server_wf _ (sample_server "B" ONLINE 10 2 0)).
  apply (register_server_wf _ (sample_server "A" ONLINE 10 5 0)).
  apply empty_registry_wf.
Qed.

Lemma fleet_AB_offline_wf : wf_registry fleet_AB_offline.
Proof.
  apply (update_server_status_wf _ "B" OFFLINE).
  apply (update_server_status_wf _ "A" OFFLINE).
  apply (register_server_wf _ (sample_server "B" ONLINE 10 0 0)).
  apply (register_server_wf _ (sample_server "A" ONLINE 10 1 0)).
  apply empty_registry_wf.
Qed.

Lemma fleet_A_offline_reachable : reachable fleet_A_offline.
Proof.
  apply (reach_update_server_status _ "A" OFFLINE).
  apply (reach_register_session _ (sample_session "S1" "A" 5)).
  apply (reach_register_server _ (sample_server "B" ONLINE 10 0 0)).
  apply (reach_register_server _ (sample_server "A" ONLINE 10 1 0)).
  apply reach_init.
Qed.

Lemma reachable_wf_witness : wf_registry fleet_A_offline.
Proof. apply reachable_wf, fleet_A_offline_reachable. Defined.

(** ** The registry: composition and round trips *)

(** X2. Registering the same payload twice in a row leaves the registry
    as one registration does. *)
Theorem register_server_idempotent (reg : ServerRegistry) (s : RuntimeServer) :
  register_server (register_server reg s).1 s = register_server reg s.
Proof.
  unfold register_server. simpl. by rewrite set_set, insert_insert_eq.
Qed.

(** X3. In a state of the proxy, registering a server whose id is not yet
    known and unregistering that id at once gives the registry back as it
    was: the server table in the same order, the sessions, the indexes. *)
Theorem unregister_server_undoes_register_server (reg : ServerRegistry)
    (s : RuntimeServer) :
  wf_registry reg →
  get_server reg (RuntimeServer.server_id s) = None →
  unregister_server (register_server reg s).1 (RuntimeServer.server_id s)
  = (reg, true).
Proof.
  intros Hwf Hnone.
  assert (Hix : _server_sessions reg !! RuntimeServer.server_id s = None).
  { apply eq_None_not_Some. rewrite <- (wf_index_keys reg Hwf), Hnone.
    by intros [? ?]. }
  unfold unregister_server, register_server. simpl.
  rewrite PyDictFacts.get_set_eq, lookup_insert_eq. simpl.
  rewrite del_set_fresh by done. rewrite delete_insert_id by done.
  by rewrite registry_eq.
Qed.

Lemma unregister_server_undoes_register_server_witness :
  unregister_server
    (register_server fleet_ABC (sample_server "D" ONLINE 10 0 0)).1 "D"
  = (fleet_ABC, true).
Proof.
  apply (unregister_server_undoes_register_server fleet_ABC
           (sample_server "D" ONLINE 10 0 0) fleet_ABC_wf).
  reflexivity.
Defined.

(** X4. Registration order: registering an id that is already known keeps
    the place of that id in the order of the server table, registering a
    new id puts it last. *)
Theorem register_server_order (reg : ServerRegistry) (s : RuntimeServer) :
  PyDict.keys (_servers (register_server reg s).1)
  = if decide (is_Some (get_server reg (RuntimeServer.server_id s)))
    then PyDict.keys (_servers reg)
    else PyDict.keys (_servers reg) ++ [RuntimeServer.server_id s].
Proof.
  unfold get_server. simpl. case_decide as Hs.
  - apply keys_set_old. apply dec_stable. intros Hnin.
    apply PyDictFacts.get_None_not_elem_of in Hnin. rewrite Hnin in Hs.
    by destruct Hs.
  - apply keys_set_new. apply PyDictFacts.get_None_not_elem_of.
    by apply eq_None_not_Some.
Qed.

Lemma list_remove_app_fresh (x : string) (l : list string) :
  x ∉ l → list_remove x (l ++ [x]) = Return l.
Proof.
  induction l as [|y l IH]; simpl.
  - intros _. by rewrite decide_True.
  - intros [Hne Hnin]%not_elem_of_cons.
    rewrite decide_False by done. by rewrite IH.
Qed.

Lemma list_remove_Return (x : string) (l l' : list string) :
  list_remove x l = Return l' → x ∈ l ∧ l ≡ₚ (x :: l').
Proof.
  revert l'. induction l as [|y l IH]; intros l'; simpl; [done|].
  destruct (decide (y = x)) as [->|Hne].
  - intros [= <-]. split; [left | done].
  - destruct (list_remove x l) as [l0|]; simpl; [|done].
    intros [= <-]. destruct (IH l0 eq_refl) as [Hin Hp].
    split; [by right|]. rewrite Hp. apply perm_swap.
Qed.

Lemma list_remove_Raise (x : string) (l : list string) (e : exn) :
  list_remove x l = Raise e → (x ∉ l) ∧ e = ValueError.
Proof.
  induction l as [|y l IH]; simpl.
  - intros [= <-]. split; [apply not_elem_of_nil | done].
  - destruct (decide (y = x)) as [->|Hne]; [done|].
    destruct (list_remove x l) as [l0|e0]; simpl; [done|].
    intros [= <-]. destruct (IH eq_refl) as [Hnin ->].
    split; [|done]. by apply not_elem_of_cons.
Qed.

(** X5. Registering a session whose id is new, for a server that has an
    index not listing that id, and unregistering it at once gives the
    registry back as it was. *)
Theorem unregister_session_undoes_register_session (reg : ServerRegistry)
    (sess : SessionInfo) (ids : list string) :
  get_session reg (SessionInfo.session_id sess) = None →
  _server_sessions reg !! SessionInfo.server_id sess = Some ids →
  SessionInfo.session_id sess ∉ ids →
  unregister_session (register_session reg sess).1 (SessionInfo.session_id sess)
  = (reg, true).
Proof.
  unfold get_session. intros Hfresh Hix Hnin.
  rewrite (register_session_known_index _ _ _ Hix).
  unfold unregister_session. simpl.
  rewrite !lookup_insert_eq, list_remove_app_fresh by done.
  rewrite delete_insert_id by done.
  rewrite insert_insert_eq, insert_id by done. by rewrite registry_eq.
Qed.

Lemma unregister_session_undoes_register_session_witness :
  unregister_session
    (register_session fleet_A (sample_session "S2" "A" 7)).1 "S2"
  = (fleet_A, true).
Proof.
  apply (unregister_session_undoes_register_session fleet_A
           (sample_session "S2" "A" 7) ["S1"]); [reflexivity | reflexivity |].
  intros [[=]|[]%elem_of_nil]%elem_of_cons.
Defined.

(** X6. [unregister_session] is all or nothing. It succeeds exactly when
    the session is stored and its id is listed in the index of the server
    it is bound to; when it fails the registry is unchanged; when it
    succeeds the session is gone, the other sessions and the server table
    are untouched. *)
Theorem unregister_session_all_or_nothing (reg : ServerRegistry)
    (sid : string) :
  ((unregister_session reg sid).2 = true ↔
     ∃ sess ids, get_session reg sid = Some sess
       ∧ _server_sessions reg !! SessionInfo.server_id sess = Some ids
       ∧ sid ∈ ids)
  ∧ ((unregister_session reg sid).2 = false →
       (unregister_session reg sid).1 = reg)
  ∧ ((unregister_session reg sid).2 = true →
       get_session (unregister_session reg sid).1 sid = None
       ∧ (∀ sid', sid' ≠ sid →
            get_session (unregister_session reg sid).1 sid'
            = get_session reg sid')
       ∧ _servers (unregister_session reg sid).1 = _servers reg).
Proof.
  unfold unregister_session, get_session.
  destruct (_sessions reg !! sid) as [sess|] eqn:Hs; simpl.
  2: { split_and!; [|done..]. split; [done|]. by intros (? & ? & ? & _). }
  destruct (_server_sessions reg !! SessionInfo.server_id sess) as [ids|]
    eqn:Hix; simpl.
  2: { split_and!; [|done..]. split; [done|].
       intros (? & ? & [= <-] & ? & _). congruence. }
  destruct (list_remove sid ids) as [ids'|e] eqn:Hrm; simpl.
  - apply list_remove_Return in Hrm as [Hin _]. split_and!; [|done|].
    + split; [|done]. intros _. by exists sess, ids.
    + intros _. rewrite lookup_delete_eq. split_and!; [done| |done].
      intros sid' Hne. by rewrite lookup_delete_ne.
  - apply list_remove_Raise in Hrm as [Hnin _]. split_and!; [|done..].
    split; [done|]. intros (? & ? & [= <-] & ? & ?). congruence.
Qed.

(** X7. [update_server_status] succeeds exactly when the id is registered
    and changes nothing when it fails. It rewrites the status of that one
    server and nothing else: its capacity and other fields, the other
    servers, the order of the server table, the sessions and the indexes
    stay as they are. *)
Theorem update_server_status_frame (reg : ServerRegistry) (id : string)
    (status : ServerStatus) :
  ((update_server_status reg id status).2 = true ↔ is_Some (get_server reg id))
  ∧ ((update_server_status reg id status).2 = false →
       (update_server_status reg id status).1 = reg)
  ∧ (∀ k, get_server (update_server_status reg id status).1 k
          = if decide (k = id)
            then RuntimeServer.set_status status <$> get_server reg k
            else get_server reg k)
  ∧ PyDict.keys (_servers (update_server_status reg id status).1)
    = PyDict.keys (_servers reg)
  ∧ _sessions (update_server_status reg id status).1 = _sessions reg
  ∧ _server_sessions (update_server_status reg id status).1
    = _server_sessions reg.
Proof.
  unfold update_server_status, get_server.
  destruct (PyDict.get id (_servers reg)) as [s|] eqn:Hs; simpl.
  - split_and!.
    + split; [by eexists | done].
    + done.
    + intros k. destruct (decide (k = id)) as [->|Hne].
      * by rewrite PyDictFacts.get_alter_eq.
      * by rewrite PyDictFacts.get_alter_ne.
    + apply PyDictFacts.keys_alter.
    + done.
    + done.
  - split_and!; [| done | | done..].
    + split; [done | by intros [? ?]].
    + intros k. destruct (decide (k = id)) as [->|Hne]; [|done]. by rewrite Hs.
Qed.

(** X8. A session whose registration succeeds is found by [get_session]
    under its id and is among the sessions [get_sessions_by_server] lists
    for its server. *)
Theorem register_session_then_listed (reg : ServerRegistry)
    (sess : SessionInfo) :
  (register_session reg sess).2 = true →
  get_session (register_session reg sess).1 (SessionInfo.session_id sess)
  = Some sess
  ∧ sess ∈ get_sessions_by_server (register_session reg sess).1
             (SessionInfo.server_id sess).
Proof.
  unfold register_session, get_session, get_sessions_by_server.
  destruct (_server_sessions reg !! SessionInfo.server_id sess) as [ids|];
    simpl; [|done].
  intros _. rewrite !lookup_insert_eq. split; [done|]. simpl.
  apply list_elem_of_omap. exists (SessionInfo.session_id sess).
  split; [|by rewrite lookup_insert_eq].
  apply elem_of_app. right. left.
Qed.

Lemma register_session_then_listed_witness :
  get_session (register_session fleet_A (sample_session "S2" "A" 7)).1 "S2"
  = Some (sample_session "S2" "A" 7)
  ∧ sample_session "S2" "A" 7
    ∈ get_sessions_by_server
        (register_session fleet_A (sample_session "S2" "A" 7)).1 "A".
Proof.
  apply (register_session_then_listed fleet_A (sample_session "S2" "A" 7)).
  reflexivity.
Defined.

(** ** The balancer: when it returns and which server it prefers *)

Lemma truediv_returns (a b : Z) :
  b ≠ 0 → Z.abs a < Z.abs b * 2 ^ 53 → ∃ q, truediv a b = Return q.
Proof.
  intros Hb Hab. unfold truediv.
  rewrite (proj2 (Z.eqb_neq b 0)) by done.
  destruct (a =? 0) eqn:Ha; [by eexists|]. apply Z.eqb_neq in Ha. cbv zeta.
  set (n := Z.abs a) in *. set (d := Z.abs b) in *.
  set (e0 := Z.log2 n - Z.log2 d).
  set (below := if 0 <=? e0 then n <? d * 2 ^ e0 else _).
  set (e := if below then e0 - 1 else e0).
  set (shift := Z.max (e - 52) (-1074)).
  set (m := if 0 <=? shift then _ else _).
  assert (Hn : 0 < n) by lia. assert (Hd : 0 < d) by lia.
  assert (He0 : e0 ≤ 53).
  { assert (Z.log2 n ≤ Z.log2 (d * 2 ^ 53)) by (apply Z.log2_le_mono; lia).
    rewrite Z.log2_mul_pow2 in * by lia. lia. }
  assert (He : e ≤ 52).
  { unfold e. destruct (decide (e0 = 53)) as [H53|]; [|destruct below; lia].
    assert (below = true) as ->; [|lia].
    unfold below. rewrite H53. simpl (0 <=? 53). cbv iota.
    apply Z.ltb_lt. lia. }
  destruct (0 <=? shift) eqn:Hs; simpl; [|by eexists].
  apply Z.leb_le in Hs. assert (shift = 0) as Hs0 by lia.
  assert (Hm : m ≤ 2 ^ 53).
  { unfold m. rewrite Hs0. simpl (0 <=? 0). cbv iota.
    apply round_half_even_le; lia. }
  rewrite Hs0, Z.mul_1_r.
  replace (2 ^ 1024 <=? m) with false; [by eexists|].
  symmetry. apply Z.leb_gt.
  assert (2 ^ 53 < 2 ^ 1024) by (apply Z.pow_lt_mono_r; lia). lia.
Qed.

(** X9. When the load ratio of every online server is defined
    ([max_sessions] not zero, the quotient below [2 ^ 53]), [select_server]
    does not raise; it returns a server exactly when one is online. The
    capacities of servers that are not online play no part. *)
Theorem select_server_total (reg : ServerRegistry) :
  (∀ s, s ∈ list_servers reg → RuntimeServer.status s = ONLINE →
        ratio_defined s) →
  ∃ o, select_server reg = Return o
       ∧ (is_Some o ↔
          ∃ s, s ∈ list_servers reg ∧ RuntimeServer.status s = ONLINE).
Proof.
  intros Hdef.
  destruct (select_server_returns reg) as [o Ho].
  { intros s [Hin Hon]. destruct (Hdef s Hin Hon) as [Hmax Hcur].
    by apply truediv_returns. }
  exists o. split; [done|]. destruct o as [s|].
  - split; [|by eexists]. intros _. exists s.
    by apply select_server_Some in Ho as [[? ?] _].
  - split; [by intros [? ?]|]. intros (s & Hin & Hon). exfalso.
    by apply (proj1 (select_server_None reg) Ho s).
Qed.

Lemma select_server_total_witness :
  ∃ o, select_server fleet_ABC = Return o
       ∧ (is_Some o ↔
          ∃ s, s ∈ list_servers fleet_ABC ∧ RuntimeServer.status s = ONLINE).
Proof.
  apply (select_server_total fleet_ABC). intros s Hin Hon.
  change (list_servers fleet_ABC)
    with [sample_server "A" ONLINE 10 5 0; sample_server "B" ONLINE 10 2 0;
          sample_server "C" OFFLINE 10 0 0] in Hin.
  repeat (apply elem_of_cons in Hin as [->|Hin]);
    [split; [discriminate | reflexivity].. | by apply elem_of_nil in Hin].
Defined.

Lemma float_lt_true (x y : Q) : float_lt x y = true ↔ Qlt x y.
Proof.
  unfold float_lt. rewrite negb_true_iff. split.
  - intros H. apply Qnot_le_lt. intros Hle%Qle_bool_iff. congruence.
  - intros Hlt. destruct (Qle_bool y x) eqn:Hle; [|done].
    apply Qle_bool_iff in Hle. by apply Qlt_not_le in Hlt.
Qed.

Section stable.
Context {A : Type}.
Implicit Types (x y h : Q * A) (l : list (Q * A)).

(** The head of the sorted list is the first of the least elements: what
    comes before it in the input is strictly greater. *)
Lemma head_sort_by_key_first l h :
  head (sort_by_key l) = Some h →
  ∃ pre post, l = pre ++ h :: post
    ∧ (∀ y, y ∈ pre → Qlt h.1 y.1)
    ∧ (∀ y, y ∈ post → Qle h.1 y.1).
Proof.
  revert h. induction l as [|x l IH]; intros h; [done|].
  change (sort_by_key (x :: l)) with (insert_by_key x (sort_by_key l)).
  destruct (sort_by_key l) as [|y0 rest] eqn:Hs.
  - apply sort_by_key_nil in Hs as ->. simpl. intros [= <-].
    exists [], []. split_and!; [done | by intros ? ?%elem_of_nil..].
  - destruct (IH y0 eq_refl) as (pre0 & post0 & -> & Hpre & Hpost).
    simpl. destruct (float_lt y0.1 x.1) eqn:Hlt; simpl; intros [= <-].
    + exists (x :: pre0), post0. split_and!; [done | | done].
      intros y [->|Hy]%elem_of_cons; [by apply float_lt_true | by apply Hpre].
    + apply float_lt_false in Hlt. exists [], (pre0 ++ y0 :: post0).
      split_and!; [done | by intros ? ?%elem_of_nil |].
      intros y [Hy|[->|Hy]%elem_of_cons]%elem_of_app.
      * eapply Qle_trans; [exact Hlt|]. apply Qlt_le_weak. by apply Hpre.
      * done.
      * eapply Qle_trans; [exact Hlt|]. by apply Hpost.
Qed.

Lemma sorted_head_first (key : A → result Q) (l l' : list A) (a : A) :
  sorted key l = Return l' → head l' = Some a →
  ∃ pre post r, l = pre ++ a :: post ∧ key a = Return r
    ∧ (∀ b, b ∈ pre → ∃ r', key b = Return r' ∧ Qlt r r')
    ∧ (∀ b, b ∈ post → ∃ r', key b = Return r' ∧ Qle r r').
Proof.
  unfold sorted. destruct (decorate key l) as [kl|] eqn:Hd; simpl; [|done].
  intros [= <-] Hhead. apply decorate_Return in Hd as [<- Hkeys].
  destruct (sort_by_key kl) as [|[r a'] rest] eqn:Hs; simplify_eq/=.
  destruct (head_sort_by_key_first kl (r, a))
    as (pre & post & -> & Hpre & Hpost); [by rewrite Hs|].
  rewrite Forall_forall in Hkeys.
  exists pre.*2, post.*2, r. split_and!.
  - by rewrite fmap_app, fmap_cons.
  - apply (Hkeys (r, a)). apply elem_of_app. right. left.
  - intros b [[r' b'] [-> Hb]]%list_elem_of_fmap. exists r'. split.
    + apply (Hkeys (r', b')). apply elem_of_app. by left.
    + by apply (Hpre (r', b')).
  - intros b [[r' b'] [-> Hb]]%list_elem_of_fmap. exists r'. split.
    + apply (Hkeys (r', b')). apply elem_of_app. right. by right.
    + by apply (Hpost (r', b')).
Qed.

Lemma filter_eq_app_cons (P : A → Prop) `{!∀ a : A, Decision (P a)}
    (l pre' post' : list A) (a : A) :
  filter P l = pre' ++ a :: post' →
  ∃ pre post, l = pre ++ a :: post
    ∧ filter P pre = pre' ∧ filter P post = post'.
Proof.
  revert pre'. induction l as [|b l IH]; intros pre'.
  - by destruct pre'.
  - rewrite filter_cons. destruct (decide (P b)) as [Hb|Hb].
    + destruct pre' as [|p pre']; simpl.
      * intros [= -> Hl]. exists [], l. by rewrite filter_nil.
      * intros [= -> Hl]. destruct (IH pre' Hl) as (pre & post & -> & <- & <-).
        exists (p :: pre), post. split_and!; [done | | done].
        by rewrite filter_cons, decide_True.
    + intros Hl. destruct (IH pre' Hl) as (pre & post & -> & <- & <-).
      exists (b :: pre), post. split_and!; [done | | done].
      by rewrite filter_cons, decide_False.
Qed.

End stable.

Lemma select_server_head_of_available (reg : ServerRegistry)
    (s : RuntimeServer) :
  select_server reg = Return (Some s) →
  ∃ pre post r,
    filter (λ s, RuntimeServer.status s = ONLINE) (list_servers reg)
    = pre ++ s :: post
    ∧ load_ratio s = Return r
    ∧ (∀ s', s' ∈ pre → ∃ r', load_ratio s' = Return r' ∧ Qlt r r')
    ∧ (∀ s', s' ∈ post → ∃ r', load_ratio s' = Return r' ∧ Qle r r').
Proof.
  unfold select_server. cbv zeta.
  destruct (filter _ (list_servers reg)) as [|a l] eqn:Hf; [done|].
  destruct (sorted load_ratio (a :: l)) as [l'|] eqn:Hs; simpl; [|done].
  intros [= Hhead]. by eapply sorted_head_first.
Qed.

(** X10. Ties go to the server registered first. When the session counts
    of all online servers are at least 0 and below [2 ^ 26], with
    [max_sessions] not 0, the server [select_server] returns has an exact
    load ratio [current_sessions / max_sessions] strictly below that of
    every online server that comes before it in the server table, and at
    most that of every online server that comes after it. *)
Theorem select_server_first_registered (reg : ServerRegistry)
    (s : RuntimeServer) :
  (∀ s', s' ∈ list_servers reg → RuntimeServer.status s' = ONLINE →
         small_counts s') →
  select_server reg = Return (Some s) →
  ∃ pre post,
    list_servers reg = pre ++ s :: post
    ∧ (∀ s', s' ∈ pre → RuntimeServer.status s' = ONLINE →
         Qlt (exact_ratio s) (exact_ratio s'))
    ∧ (∀ s', s' ∈ post → RuntimeServer.status s' = ONLINE →
         Qle (exact_ratio s) (exact_ratio s')).
Proof.
  intros Hsmall Hsel.
  destruct (select_server_head_of_available reg s Hsel)
    as (pre' & post' & r & Hf & Hr & Hpre & Hpost).
  destruct (filter_eq_app_cons _ _ _ _ _ Hf) as (pre & post & Hl & <- & <-).
  assert (Hs : online_in reg s).
  { apply elem_of_available. rewrite Hf. apply elem_of_app. right. left. }
  destruct Hs as [Hin Hon]. destruct (Hsmall s Hin Hon) as [Hc Hm].
  unfold load_ratio in *.
  exists pre, post. split_and!; [done | |].
  - intros s' Hin' Hon'.
    destruct (Hpre s') as (r' & Hr' & Hlt); [by apply list_elem_of_filter|].
    destruct (Hsmall s') as [Hc' Hm'];
      [rewrite Hl; apply elem_of_app; by left | done |].
    unfold exact_ratio, Qlt. simpl. rewrite !Z2Pos.id by lia.
    destruct (Z.lt_trichotomy
                (ServerCapacity.current_sessions (RuntimeServer.capacity s)
                 * ServerCapacity.max_sessions (RuntimeServer.capacity s'))
                (ServerCapacity.current_sessions (RuntimeServer.capacity s')
                 * ServerCapacity.max_sessions (RuntimeServer.capacity s)))
      as [|[Heq|Hgt]]; [done | exfalso..].
    + assert (r = r') as <-.
      { eapply truediv_small_eq; [| | | | exact Hr | exact Hr' | done]; done. }
      by apply Qlt_irrefl in Hlt.
    + apply (Qlt_not_le r r' Hlt). apply Qlt_le_weak.
      eapply truediv_small_lt; [| | | | exact Hr' | exact Hr | lia]; done.
  - intros s' Hin' Hon'.
    destruct (Hpost s') as (r' & Hr' & Hle); [by apply list_elem_of_filter|].
    destruct (Hsmall s') as [Hc' Hm'];
      [rewrite Hl; apply elem_of_app; right; by right | done |].
    unfold exact_ratio, Qle. simpl. rewrite !Z2Pos.id by lia.
    destruct (Z.le_gt_cases
                (ServerCapacity.current_sessions (RuntimeServer.capacity s)
                 * ServerCapacity.max_sessions (RuntimeServer.capacity s'))
                (ServerCapacity.current_sessions (RuntimeServer.capacity s')
                 * ServerCapacity.max_sessions (RuntimeServer.capacity s)))
      as [|Hgt]; [done|].
    exfalso. apply (Qlt_not_le r' r); [|done].
    eapply truediv_small_lt; [| | | | exact Hr' | exact Hr | lia]; done.
Qed.

Lemma select_server_first_registered_witness :
  ∃ pre post,
    list_servers fleet_ABC = pre ++ sample_server "B" ONLINE 10 2 0 :: post
    ∧ (∀ s', s' ∈ pre → RuntimeServer.status s' = ONLINE →
         Qlt (exact_ratio (sample_server "B" ONLINE 10 2 0)) (exact_ratio s'))
    ∧ (∀ s', s' ∈ post → RuntimeServer.status s' = ONLINE →
         Qle (exact_ratio (sample_server "B" ONLINE 10 2 0)) (exact_ratio s')).
Proof.
  apply (select_server_first_registered fleet_ABC);
    [exact fleet_ABC_small | reflexivity].
Defined.

Lemma load_ratio_idle (s : RuntimeServer) :
  ServerCapacity.current_sessions (RuntimeServer.capacity s) = 0 →
  ServerCapacity.max_sessions (RuntimeServer.capacity s) ≠ 0 →
  load_ratio s = Return (inject_Z 0).
Proof.
  intros Hc Hm. unfold load_ratio, truediv. rewrite Hc.
  by rewrite (proj2 (Z.eqb_neq _ 0) Hm).
Qed.

(** X11. When every online server reports no current session (and a
    [max_sessions] that is not zero), as the worker's registration data
    always does, [select_server] returns the online server registered
    first, whatever the capacities. *)
Theorem select_server_all_idle (reg : ServerRegistry) :
  (∀ s, s ∈ list_servers reg → RuntimeServer.status s = ONLINE →
        ServerCapacity.current_sessions (RuntimeServer.capacity s) = 0
        ∧ ServerCapacity.max_sessions (RuntimeServer.capacity s) ≠ 0) →
  select_server reg
  = Return (head (filter (λ s, RuntimeServer.status s = ONLINE)
                    (list_servers reg))).
Proof.
  intros Hidle.
  assert (Hratio : ∀ s, online_in reg s → load_ratio s = Return (inject_Z 0)).
  { intros s [Hin Hon]. destruct (Hidle s Hin Hon). by apply load_ratio_idle. }
  destruct (select_server_returns reg) as [[s|] Ho].
  { intros s Hs. rewrite (Hratio s Hs). by eexists. }
  - rewrite Ho.
    destruct (select_server_head_of_available reg s Ho)
      as (pre & post & r & Hf & Hr & Hpre & _).
    rewrite Hf. destruct pre as [|p pre]; [done|]. exfalso.
    destruct (Hpre p ltac:(left)) as (r' & Hr' & Hlt).
    assert (online_in reg s ∧ online_in reg p) as [Hs Hp].
    { split; apply elem_of_available; rewrite Hf;
        [apply elem_of_app; right; left | left]. }
    rewrite (Hratio s Hs) in Hr. rewrite (Hratio p Hp) in Hr'.
    injection Hr as <-. injection Hr' as <-. by apply Qlt_irrefl in Hlt.
  - rewrite Ho. pose proof (proj1 (select_server_None reg) Ho) as Hno.
    destruct (filter _ (list_servers reg)) as [|a l] eqn:Hf; [done|].
    exfalso. apply (Hno a), elem_of_available. rewrite Hf. left.
Qed.

Lemma select_server_all_idle_witness :
  select_server fleet_idle = Return (Some (sample_server "A" ONLINE 100 0 0)).
Proof.
  apply (select_server_all_idle fleet_idle). intros s Hin Hon.
  change (list_servers fleet_idle)
    with [sample_server "A" ONLINE 100 0 0; sample_server "B" ONLINE 100 0 0]
    in Hin.
  repeat (apply elem_of_cons in Hin as [->|Hin]);
    [split; [reflexivity | discriminate].. | by apply elem_of_nil in Hin].
Defined.

(** ** The heartbeat sweep: composition *)

(** Over a sweepable table with unique keys the sweep runs to its end and
    rewrites every stored server by [swept], in place. *)
Lemma check_heartbeats_servers (heartbeat_timeout : Z) (now : Z)
    (reg : ServerRegistry) :
  wf_servers reg → 0 ≤ heartbeat_timeout < 2 ^ 34 → representable now →
  sweepable reg →
  _check_heartbeats heartbeat_timeout now reg
  = (mkRegistry
       ((λ kv, (kv.1, swept heartbeat_timeout now kv.2)) <$> _servers reg)
       (_sessions reg) (_server_sessions reg),
     Return ()).
Proof.
  intros Hwf HT Hnow Hsw.
  pose proof (check_heartbeats_completes heartbeat_timeout now reg
                Hwf HT Hnow Hsw) as Hend.
  pose proof (λ k, check_heartbeats_lookup heartbeat_timeout now reg k
                     Hwf HT Hnow Hsw) as Hget.
  destruct (for_servers_frame heartbeat_timeout now
              (PyDict.keys (_servers reg)) reg) as (Hsess & Hidx & Hkeys).
  unfold _check_heartbeats in *. cbv zeta in *.
  destruct (for_servers _ _ _ reg) as [[servers' sessions' index'] r].
  simpl in *. subst. f_equal. f_equal. apply dict_ext.
  - by rewrite keys_map_values.
  - rewrite Hkeys. apply Hwf.
  - intros k. unfold get_server in Hget. simpl in Hget.
    by rewrite Hget, get_map_values.
Qed.

Lemma list_servers_check_heartbeats (heartbeat_timeout : Z) (now : Z)
    (reg : ServerRegistry) :
  wf_servers reg → 0 ≤ heartbeat_timeout < 2 ^ 34 → representable now →
  sweepable reg →
  list_servers (_check_heartbeats heartbeat_timeout now reg).1
  = swept heartbeat_timeout now <$> list_servers reg.
Proof.
  intros Hwf HT Hnow Hsw. rewrite check_heartbeats_servers by done.
  unfold list_servers, PyDict.values. simpl.
  rewrite <- !list_fmap_compose. done.
Qed.

Lemma wf_servers_check_heartbeats (heartbeat_timeout : Z) (now : Z)
    (reg : ServerRegistry) :
  wf_servers reg → 0 ≤ heartbeat_timeout < 2 ^ 34 → representable now →
  sweepable reg →
  wf_servers (_check_heartbeats heartbeat_timeout now reg).1.
Proof.
  intros Hwf HT Hnow Hsw. rewrite check_heartbeats_servers by done.
  destruct Hwf as [Hnd Hid]. split; simpl.
  - by rewrite keys_map_values.
  - apply Forall_fmap. eapply Forall_impl; [exact Hid|].
    intros [k s] Hks. simpl in *. unfold swept. by repeat case_match.
Qed.

(** A sweep leaves a sweepable table sweepable: it changes no timestamp. *)
Lemma sweepable_check_heartbeats (heartbeat_timeout : Z) (now : Z)
    (reg : ServerRegistry) :
  wf_servers reg → 0 ≤ heartbeat_timeout < 2 ^ 34 → representable now →
  sweepable reg →
  sweepable (_check_heartbeats heartbeat_timeout now reg).1.
Proof.
  intros Hwf HT Hnow Hsw s.
  rewrite list_servers_check_heartbeats by done.
  intros (s0 & -> & Hin)%list_elem_of_fmap. unfold swept.
  destruct (decide (RuntimeServer.status s0 = OFFLINE)); [done|].
  destruct (silent_beyond heartbeat_timeout now s0); [done|].
  intros _. by apply Hsw.
Qed.

Lemma swept_later (heartbeat_timeout : Z) (now1 now2 : Z)
    (s : RuntimeServer) :
  now1 ≤ now2 →
  swept heartbeat_timeout now2 (swept heartbeat_timeout now1 s)
  = swept heartbeat_timeout now2 s.
Proof.
  intros Hle. unfold swept at 2.
  destruct (decide (RuntimeServer.status s = OFFLINE)) as [Hoff|Hon]; [done|].
  destruct (silent_beyond heartbeat_timeout now1 s) eqn:H1; [|done].
  unfold swept. rewrite decide_True by done. rewrite decide_False by done.
  replace (silent_beyond heartbeat_timeout now2 s) with true; [done|].
  symmetry. unfold silent_beyond in *.
  destruct (ServerCapacity.last_updated (RuntimeServer.capacity s)); [|done].
  apply Z.ltb_lt in H1. apply Z.ltb_lt. lia.
Qed.

(** X12. Over a server table in which every server that is not offline
    carries a naive [last_updated], with a timeout of at least 0 and less
    than [2 ^ 34] seconds and nothing else happening in between, a sweep
    followed by a sweep at the same or a later time ends as the later sweep
    alone does and leaves the registry as the later sweep alone does; in
    particular sweeping twice at one instant is sweeping once. *)
Theorem check_heartbeats_later_sweep_subsumes (heartbeat_timeout : Z)
    (now1 now2 : Z) (reg : ServerRegistry) :
  wf_servers reg → 0 ≤ heartbeat_timeout < 2 ^ 34 →
  representable now1 → representable now2 → sweepable reg →
  now1 ≤ now2 →
  _check_heartbeats heartbeat_timeout now2
    (_check_heartbeats heartbeat_timeout now1 reg).1
  = _check_heartbeats heartbeat_timeout now2 reg.
Proof.
  intros Hwf HT Hnow1 Hnow2 Hsw Hle.
  rewrite (check_heartbeats_servers _ now2 (_check_heartbeats _ now1 reg).1)
    by (done || by apply wf_servers_check_heartbeats
             || by apply sweepable_check_heartbeats).
  rewrite !check_heartbeats_servers by done. simpl. f_equal. f_equal.
  rewrite <- list_fmap_compose. apply list_fmap_ext.
  intros i [k s] _. simpl. by rewrite swept_later.
Qed.

Lemma check_heartbeats_later_sweep_subsumes_witness :
  _check_heartbeats 60 100000000
    (_check_heartbeats 60 70000000 fleet_heartbeats).1
  = _check_heartbeats 60 100000000 fleet_heartbeats.
Proof.
  apply (check_heartbeats_later_sweep_subsumes 60 70000000 100000000
           fleet_heartbeats fleet_heartbeats_wf);
    [lia | unfold representable, datetime_span; lia
     | unfold representable, datetime_span; lia
     | exact fleet_heartbeats_sweepable | lia].
Defined.

(** X13. Over a server table in which every server that is not offline
    carries a naive [last_updated], and with a timeout of at least 0 and
    less than [2 ^ 34] seconds, a server that [select_server] returns right
    after a sweep was registered and online before the sweep and has been
    heard from within the timeout: a server silent for longer is not given
    a new session. *)
Theorem select_server_after_sweep_is_fresh (heartbeat_timeout : Z)
    (now : Z) (reg : ServerRegistry) (s : RuntimeServer) :
  wf_servers reg → 0 ≤ heartbeat_timeout < 2 ^ 34 → representable now →
  sweepable reg →
  select_server (_check_heartbeats heartbeat_timeout now reg).1
  = Return (Some s) →
  s ∈ list_servers reg
  ∧ RuntimeServer.status s = ONLINE
  ∧ ∃ t, ServerCapacity.last_updated (RuntimeServer.capacity s) = Naive t
         ∧ now - t ≤ heartbeat_timeout * 1000000.
Proof.
  intros Hwf HT Hnow Hsw [[Hin Hon] _]%select_server_Some.
  rewrite list_servers_check_heartbeats in Hin by done.
  apply list_elem_of_fmap in Hin as (s0 & -> & Hin0).
  unfold swept in *.
  destruct (decide (RuntimeServer.status s0 = OFFLINE)); [congruence|].
  destruct (silent_beyond heartbeat_timeout now s0) eqn:He; [done|].
  split_and!; [done | done |].
  destruct (Hsw s0 Hin0) as (t & Hlast & _); [done|].
  exists t. split; [done|]. unfold silent_beyond in He. rewrite Hlast in He.
  by apply Z.ltb_ge in He.
Qed.

Lemma select_server_after_sweep_is_fresh_witness :
  sample_server "B" ONLINE 10 0 50000000 ∈ list_servers fleet_heartbeats
  ∧ RuntimeServer.status (sample_server "B" ONLINE 10 0 50000000) = ONLINE
  ∧ ∃ t,
      ServerCapacity.last_updated
        (RuntimeServer.capacity (sample_server "B" ONLINE 10 0 50000000))
      = Naive t
      ∧ 100000000 - t ≤ 60 * 1000000.
Proof.
  apply (select_server_after_sweep_is_fresh 60 100000000 fleet_heartbeats
           (sample_server "B" ONLINE 10 0 50000000) fleet_heartbeats_wf);
    [lia | unfold representable, datetime_span; lia
     | exact fleet_heartbeats_sweepable | reflexivity].
Defined.

(** ** The heartbeat endpoint: agreeing ids *)

(** X14. A heartbeat posted under the id of its body, for a registered
    server, is answered with success; the stored server takes the capacity
    of the body, goes online if it was offline and keeps its status
    otherwise, and keeps its host, port and metadata (the status, host and
    port of the body are ignored). The other servers, the order of the
    server table, the sessions and the indexes are unchanged. *)
Theorem handle_heartbeat_agreeing_ids (reg : ServerRegistry)
    (b s : RuntimeServer) :
  get_server reg (RuntimeServer.server_id b) = Some s →
  (handle_heartbeat reg (RuntimeServer.server_id b) b).2 = Return ()
  ∧ get_server (handle_heartbeat reg (RuntimeServer.server_id b) b).1
      (RuntimeServer.server_id b)
    = Some (RuntimeServer.mk (RuntimeServer.server_id s) (RuntimeServer.host s)
              (RuntimeServer.port s)
              (if decide (RuntimeServer.status s = OFFLINE) then ONLINE
               else RuntimeServer.status s)
              (RuntimeServer.capacity b) (RuntimeServer.metadata s))
  ∧ (∀ k, k ≠ RuntimeServer.server_id b →
       get_server (handle_heartbeat reg (RuntimeServer.server_id b) b).1 k
       = get_server reg k)
  ∧ PyDict.keys (_servers (handle_heartbeat reg (RuntimeServer.server_id b) b).1)
    = PyDict.keys (_servers reg)
  ∧ _sessions (handle_heartbeat reg (RuntimeServer.server_id b) b).1
    = _sessions reg
  ∧ _server_sessions (handle_heartbeat reg (RuntimeServer.server_id b) b).1
    = _server_sessions reg.
Proof.
  intros Hs.
  destruct (handle_heartbeat_same_id reg b s Hs) as [Hans Hget].
  split_and!; [done | done | ..]; clear Hans Hget;
    unfold handle_heartbeat; rewrite Hs; unfold get_server in Hs;
    destruct (decide (RuntimeServer.status s = OFFLINE)); simpl;
    unfold update_server_status, get_server; simpl;
    rewrite ?PyDictFacts.get_alter_eq, ?Hs; simpl;
    rewrite ?PyDictFacts.keys_alter; try done.
  - intros k Hne. by rewrite !PyDictFacts.get_alter_ne.
  - intros k Hne. by rewrite !PyDictFacts.get_alter_ne.
Qed.

Lemma handle_heartbeat_agreeing_ids_witness :
  get_server
    (handle_heartbeat fleet_AB_offline "A" (sample_server "A" BUSY 10 3 70)).1
    "A"
  = Some (sample_server "A" ONLINE 10 3 70).
Proof.
  destruct (handle_heartbeat_agreeing_ids fleet_AB_offline
              (sample_server "A" BUSY 10 3 70)
              (sample_server "A" OFFLINE 10 1 0) eq_refl) as (_ & H & _).
  exact H.
Defined.

(** X15. In a state of the proxy, after a heartbeat posted under the id of
    its body for a registered server, with a naive [last_updated] in the
    body, a sweep taken no later than the timeout after that [last_updated]
    leaves the server as the heartbeat left it, with the capacity of the
    body and not offline, whether the sweep runs to its end or is ended by
    the timestamp of another server. The timeout is at least 0 and less
    than [2 ^ 34] seconds. *)
Theorem heartbeat_then_sweep (heartbeat_timeout : Z) (now t : Z)
    (reg : ServerRegistry) (b s : RuntimeServer) :
  wf_registry reg →
  get_server reg (RuntimeServer.server_id b) = Some s →
  0 ≤ heartbeat_timeout < 2 ^ 34 → representable now → representable t →
  ServerCapacity.last_updated (RuntimeServer.capacity b) = Naive t →
  now - t ≤ heartbeat_timeout * 1000000 →
  get_server
    (_check_heartbeats heartbeat_timeout now
       (handle_heartbeat reg (RuntimeServer.server_id b) b).1).1
    (RuntimeServer.server_id b)
  = Some (RuntimeServer.mk (RuntimeServer.server_id s) (RuntimeServer.host s)
            (RuntimeServer.port s)
            (if decide (RuntimeServer.status s = OFFLINE) then ONLINE
             else RuntimeServer.status s)
            (RuntimeServer.capacity b) (RuntimeServer.metadata s)).
Proof.
  intros Hwf Hs HT Hnow Ht Hlast Hage.
  destruct (handle_heartbeat_same_id reg b s Hs) as [_ Hget].
  pose proof (handle_heartbeat_wf reg (RuntimeServer.server_id b) b Hwf) as Hwf'.
  set (reg' := (handle_heartbeat reg (RuntimeServer.server_id b) b).1) in *.
  set (s1 := RuntimeServer.mk _ _ _ _ _ _) in *.
  unfold _check_heartbeats. cbv zeta.
  rewrite for_servers_lookup_stable;
    [done | apply wf_servers_ids_agree, Hwf' |].
  intros s'. rewrite Hget. intros [= <-]. unfold visited.
  destruct (decide (RuntimeServer.status s1 = OFFLINE)) as [|Hon]; [done|].
  destruct (time_since_last_heartbeat_naive heartbeat_timeout now t s1)
    as (q & -> & ->); [done..|].
  replace (_ <? _) with false by (symmetry; by apply Z.ltb_ge). done.
Qed.

Lemma heartbeat_then_sweep_witness :
  get_server
    (_check_heartbeats 60 100000000
       (handle_heartbeat fleet_AB_offline "A"
          (sample_server "A" ONLINE 10 3 70000000)).1).1
    "A"
  = Some (sample_server "A" ONLINE 10 3 70000000).
Proof.
  apply (heartbeat_then_sweep 60 100000000 70000000 fleet_AB_offline
           (sample_server "A" ONLINE 10 3 70000000)
           (sample_server "A" OFFLINE 10 1 0) fleet_AB_offline_wf);
    [reflexivity | lia | unfold representable, datetime_span; lia
     | unfold representable, datetime_span; lia | reflexivity | lia].
Defined.

(** ** The router: bindings *)

Lemma proxy_request_of_affinity (reg : ServerRegistry) (now1 now2 : Z)
    (session_id : option string) (target : RuntimeServer) :
  affinity_target reg session_id = Some target →
  proxy_request reg now1 now2 session_id
  = (reg,
     [Call_upstream (RuntimeServer.host target) (RuntimeServer.port target)],
     Return target).
Proof. intros H. unfold proxy_request. by rewrite H. Qed.

Lemma register_session_stores (reg : ServerRegistry) (sess : SessionInfo) :
  get_session (register_session reg sess).1 (SessionInfo.session_id sess)
  = Some sess
  ∧ _servers (register_session reg sess).1 = _servers reg.
Proof.
  unfold register_session, get_session.
  destruct (_server_sessions reg !! _); simpl; by rewrite lookup_insert_eq.
Qed.

(** X16. Sticky routing. In a state of the proxy, when a request with a
    non-empty [session_id] header has been sent to a server, the next
    request with the same header, with nothing else happening in between,
    is sent to the same server by affinity, without consulting the balancer
    and without changing the registry. *)
Theorem proxy_request_sticky (reg reg' : ServerRegistry)
    (now1 now2 now1' now2' : Z) (sid : string) (calls : list call)
    (target : RuntimeServer) :
  wf_registry reg → sid ≠ EmptyString →
  proxy_request reg now1 now2 (Some sid) = (reg', calls, Return target) →
  proxy_request reg' now1' now2' (Some sid)
  = (reg',
     [Call_upstream (RuntimeServer.host target) (RuntimeServer.port target)],
     Return target).
Proof.
  intros Hwf Hne. unfold proxy_request at 1.
  destruct (affinity_target reg (Some sid)) as [t|] eqn:Haff.
  - intros [= <- _ <-]. by apply proxy_request_of_affinity.
  - destruct (select_server reg) as [[t|]|] eqn:Hsel; [|done..].
    simpl. intros [= <- _ <-]. apply proxy_request_of_affinity.
    apply select_server_Some in Hsel as [[Hin _] _].
    set (sess := SessionInfo.mk sid (RuntimeServer.server_id t) (Naive now1)
                   (Naive now2) []).
    destruct (register_session_stores reg sess) as [Hget Hsrv].
    unfold affinity_target. rewrite decide_False by done.
    change sid with (SessionInfo.session_id sess) at 1. rewrite Hget. simpl.
    unfold get_server. rewrite Hsrv.
    by apply (wf_servers_listed reg t (wf_table reg Hwf)).
Qed.

Lemma proxy_request_sticky_witness :
  proxy_request (proxy_request fleet_ABC 9 10 (Some "S9")).1.1 20 21 (Some "S9")
  = ((proxy_request fleet_ABC 9 10 (Some "S9")).1.1,
     [Call_upstream "host-B" 9001],
     Return (sample_server "B" ONLINE 10 2 0)).
Proof.
  apply (proxy_request_sticky fleet_ABC _ 9 10 20 21 "S9"
           (proxy_request fleet_ABC 9 10 (Some "S9")).1.2
           (sample_server "B" ONLINE 10 2 0) fleet_ABC_wf);
    [discriminate | reflexivity].
Defined.

(** X17. The request fails with 503 exactly when no bound server is found
    for its header and no registered server is online. *)
Theorem proxy_request_no_capacity_iff (reg : ServerRegistry) (now1 now2 : Z)
    (session_id : option string) :
  (proxy_request reg now1 now2 session_id).2 = Raise (HTTPException 503)
  ↔ affinity_target reg session_id = None
    ∧ ∀ s, s ∈ list_servers reg → RuntimeServer.status s ≠ ONLINE.
Proof.
  unfold proxy_request.
  destruct (affinity_target reg session_id) as [t|]; simpl.
  { split; [done | by intros [? _]]. }
  destruct (select_server reg) as [[t|]|e] eqn:Hsel; simpl.
  - apply select_server_Some in Hsel as [[Hin Hon] _].
    destruct (SessionInfo.init now1 now2 session_id _); simpl;
      (split; [done | intros [_ H]; by destruct (H t Hin)]).
  - split; [|done]. intros _. split; [done|]. intros s Hin Hon.
    by apply (proj1 (select_server_None reg) Hsel s).
  - split; [done|]. intros [_ Hno]. exfalso.
    assert (select_server reg = Return None) as Hnone; [|congruence].
    apply select_server_None. intros s [Hin Hon]. by apply (Hno s).
Qed.

(** X18. In a state of the proxy, when a request carries a [session_id]
    header (empty or not) for which no bound server is found and the
    balancer selects a server, the request is sent to that server and a
    session is stored under the id of the header, bound to that server,
    with no metadata, and listed in the index of that server; its
    [created_at] and [last_active] are the two readings of the clock, naive
    both, that the construction of the session takes, the first for
    [created_at]; the server table is unchanged. *)
Theorem proxy_request_binds_new_session (reg : ServerRegistry) (now1 now2 : Z)
    (sid : string) (target : RuntimeServer) :
  wf_registry reg →
  affinity_target reg (Some sid) = None →
  select_server reg = Return (Some target) →
  (proxy_request reg now1 now2 (Some sid)).2 = Return target
  ∧ get_session (proxy_request reg now1 now2 (Some sid)).1.1 sid
    = Some (SessionInfo.mk sid (RuntimeServer.server_id target)
              (Naive now1) (Naive now2) [])
  ∧ (∃ ids,
       _server_sessions (proxy_request reg now1 now2 (Some sid)).1.1
         !! RuntimeServer.server_id target = Some ids
       ∧ sid ∈ ids)
  ∧ _servers (proxy_request reg now1 now2 (Some sid)).1.1 = _servers reg.
Proof.
  intros Hwf Haff Hsel. unfold proxy_request. rewrite Haff, Hsel. simpl.
  set (sess := SessionInfo.mk sid (RuntimeServer.server_id target)
                 (Naive now1) (Naive now2) []).
  destruct (register_session_stores reg sess) as [Hget Hsrv].
  split_and!; [done | exact Hget | | exact Hsrv].
  apply select_server_Some in Hsel as [[Hin _] _].
  pose proof (wf_servers_listed reg target (wf_table reg Hwf) Hin) as Hsome.
  assert (is_Some (_server_sessions reg !! RuntimeServer.server_id target))
    as [ids Hids].
  { apply (wf_index_keys reg Hwf). by eexists. }
  rewrite (register_session_known_index reg sess ids Hids). simpl.
  rewrite lookup_insert_eq. eexists. split; [done|].
  apply elem_of_app. right. left.
Qed.

Lemma proxy_request_binds_new_session_witness :
  (proxy_request fleet_ABC 9 10 (Some "S9")).2
  = Return (sample_server "B" ONLINE 10 2 0)
  ∧ get_session (proxy_request fleet_ABC 9 10 (Some "S9")).1.1 "S9"
    = Some (SessionInfo.mk "S9" "B" (Naive 9) (Naive 10) [])
  ∧ (∃ ids,
       _server_sessions (proxy_request fleet_ABC 9 10 (Some "S9")).1.1 !! "B"
       = Some ids
       ∧ "S9" ∈ ids)
  ∧ _servers (proxy_request fleet_ABC 9 10 (Some "S9")).1.1 = _servers fleet_ABC.
Proof.
  apply (proxy_request_binds_new_session fleet_ABC 9 10 "S9"
           (sample_server "B" ONLINE 10 2 0) fleet_ABC_wf);
    reflexivity.
Defined.

(** X19. Routing never touches the server table: whatever the request and
    its outcome, the servers, their capacities and their order are as
    before, so the balancer's next choice is the same. Binding a session
    to a server does not raise that server's load. *)
Theorem proxy_request_keeps_servers (reg : ServerRegistry) (now1 now2 : Z)
    (session_id : option string) :
  _servers (proxy_request reg now1 now2 session_id).1.1 = _servers reg
  ∧ select_server (proxy_request reg now1 now2 session_id).1.1
    = select_server reg.
Proof.
  assert (H : _servers (proxy_request reg now1 now2 session_id).1.1
              = _servers reg).
  { unfold proxy_request. repeat case_match; simpl; try done.
    apply register_session_stores. }
  split; [done|]. unfold select_server, list_servers. by rewrite H.
Qed.

(** ** The worker seen from the registry *)



(** ** What the operations leave alone *)

(** X21. [unregister_server K] touches nothing but [K] and the sessions
    listed under [K]: every other server and every other index is as
    before, and so is every session whose id is not listed in the index of
    [K]. *)
Theorem unregister_server_frame (reg : ServerRegistry) (K : string) :
  (∀ k, k ≠ K → get_server (unregister_server reg K).1 k = get_server reg k)
  ∧ (∀ k, k ≠ K →
       _server_sessions (unregister_server reg K).1 !! k
       = _server_sessions reg !! k)
  ∧ (∀ sid, sid ∉ default [] (_server_sessions reg !! K) →
       get_session (unregister_server reg K).1 sid = get_session reg sid).
Proof.
  unfold unregister_server, get_server, get_session.
  destruct (PyDict.get K (_servers reg)); simpl; [|done].
  split_and!.
  - intros k Hne. by apply PyDictFacts.get_del_ne.
  - intros k Hne. by apply lookup_delete_ne.
  - intros sid Hnin. rewrite drop_sessions_lookup. by rewrite decide_False.
Qed.

(** X22. The heartbeat endpoint answers success for every path id and
    every body: the automatic registration cannot fail, so the 400 answer
    is never given, also when the path id and the id of the body
    disagree. *)
Theorem handle_heartbeat_always_succeeds (reg : ServerRegistry)
    (server_id : string) (runtime_server : RuntimeServer) :
  (handle_heartbeat reg server_id runtime_server).2 = Return ().
Proof.
  unfold handle_heartbeat.
  destruct (get_server reg (RuntimeServer.server_id runtime_server)); simpl;
    [by case_decide | done].
Qed.
